(** * freq_app: the fraud-scoring Bayesian network

    A shallow embedding of the model code of [freq_app]:

    - [freq_app/utils/math_utils.py]   ([sigmoid], [bias_for_base_rate]),
    - [freq_app/model/weights.py]      ([logit], [train_and_save_weights],
                                        [load_weights]),
    - [freq_app/model/priors.py]       ([load_priors], [build_priors]),
    - [freq_app/model/model_builder.py] ([FraudBN]),
    - [freq_app/service.py]            ([FraudService.__init__]).

    Numbers.  A Python [float] is modelled by a real number: rounding is
    not represented.  What is represented of the floating-point world is
    what makes the code raise: [math.log] outside its domain
    ([ValueError]), [/] by zero ([ZeroDivisionError]) and [math.exp]
    beyond the largest double ([OverflowError]).  The real numbers stand
    for the finite doubles; not-a-number and the infinities are added in
    the part on doubles that are not finite, for the functions of
    [math_utils.py] and [weights.py].

    Exceptions.  A function that can raise returns a [result]; the first
    exception raised ends the computation, as in Python.

    Dictionaries.  [WEIGHTS] and the evidence are finite maps ([gmap]);
    a parsed JSON object whose iteration order the code relies on is an
    association list in file order. *)

From Stdlib Require Import Reals Lra Lia.
From stdpp Require Import gmap strings list.

Local Open Scope R_scope.

(** ** Exceptions and results *)

(** The checks of network validation (spec 4.3), named so that an error
    can say which one failed. *)
Inductive check : Set :=
| OneCptPerVariable
| ParentsMatchEdges
| DistributionsSumToOne
| EdgesAcyclic.

Inductive exn : Type :=
| KeyError (key : string)            (* dict subscript; a LookupError *)
| ValueError_math_domain             (* math.log of a non-positive number *)
| ZeroDivisionError                  (* float division by zero *)
| OverflowError                      (* math.exp: math range error *)
| FileNotFoundError                  (* open() of a missing file *)
| ValueError_shape                   (* TabularCPD: values of the wrong shape *)
| AssertionError                     (* a failed assert *)
| ModelInconsistencyError (failed : check)
| InvalidEvidenceError.

Inductive result (A : Type) : Type :=
| Ok (a : A)
| Raise (e : exn).
Arguments Ok {A} a.
Arguments Raise {A} e.

#[global] Instance result_ret : MRet result := fun A a => Ok a.
#[global] Instance result_bind : MBind result := fun A B f r =>
  match r with
  | Ok a => f a
  | Raise e => Raise e
  end.
#[global] Instance result_fmap : FMap result := fun A B f r =>
  match r with
  | Ok a => Ok (f a)
  | Raise e => Raise e
  end.

(** The exception classes of Python that the spec's taxonomy names. *)
Definition is_LookupError (e : exn) : Prop :=
  match e with KeyError _ => True | _ => False end.

Definition raises {A} (r : result A) : Prop :=
  match r with Ok _ => False | Raise _ => True end.

(** [for x in l: acc.append(f(x))], stopping at the first exception. *)
Fixpoint for_append {A B} (f : A → result B) (l : list A) : result (list B) :=
  match l with
  | [] => Ok []
  | x :: l' => y ← f x; ys ← for_append f l'; Ok (y :: ys)
  end.

(** [d[k]] on a dict held as a finite map. *)
Definition subscript {V} (d : gmap string V) (k : string) : result V :=
  match d !! k with
  | Some v => Ok v
  | None => Raise (KeyError k)
  end.

(** [d[k]] on a parsed JSON object (association list in file order). *)
Fixpoint json_get {V} (d : list (string * V)) (k : string) : result V :=
  match d with
  | [] => Raise (KeyError k)
  | (k', v) :: d' => if decide (k' = k) then Ok v else json_get d' k
  end.

(** ** Python's float operations that can raise *)

(** Comparisons of floats, as the code's [if] tests them. *)
#[global] Instance Rlt_decision (x y : R) : Decision (x < y) := Rlt_dec x y.
#[global] Instance Rle_decision (x y : R) : Decision (x <= y) := Rle_dec x y.
#[global] Instance R_eq_decision : EqDecision R := Req_dec_T.

(** The largest finite double, [(2 - 2^-52) * 2^1023]. *)
Definition DBL_MAX : R := (2 - / 2 ^ 52) * 2 ^ 1023.

(** [math.exp(x)]: [OverflowError] ("math range error") when the result
    is not a finite double. *)
Definition math_exp (x : R) : result R :=
  if decide (exp x <= DBL_MAX) then Ok (exp x) else Raise OverflowError.

(** [math.log(x)]: [ValueError] ("math domain error") unless [x] is
    positive. *)
Definition math_log (x : R) : result R :=
  if decide (0 < x) then Ok (ln x) else Raise ValueError_math_domain.

(** [a / b] on floats. *)
Definition truediv (a b : R) : result R :=
  if decide (b = 0) then Raise ZeroDivisionError else Ok (a / b).

(** ** freq_app/utils/math_utils.py *)

(** [return 1.0 / (1.0 + math.exp(-input_val))], on a finite double;
    [sigmoid_float] below takes every double. *)
Definition sigmoid (input_val : R) : result R :=
  e ← math_exp (- input_val);
  truediv 1 (1 + e).

(** ** The files and settings the model code reads *)

(** One entry of [priors.json]: the states of an evidence node and,
    aligned with them by position, their prior probabilities. *)
Record prior_spec : Type := {
  states : list string;
  values : list R
}.

(** A parsed JSON object, in file order. *)
Abbreviation json_object V := (list (string * V)).

(** [None] stands for a file that does not exist (for [weights.json]:
    that does not exist or is empty). *)
Record files : Type := {
  priors_json : option (json_object prior_spec);
  raw_probs_json : option (json_object (json_object R));
  weights_json : option (R * gmap string R)
}.

(** [freq_app/config/settings.py], the fields the model code reads. *)
Record Settings : Type := {
  build_weights : bool;
  base_fraud_rate : R
}.

(** ** freq_app/model/weights.py *)

(** What the module sends to [logger.info]. *)
Inductive log_record : Type :=
| ProbabilityOutOfRange (probability : R)
| MissingRawProbs
| WeightsWritten
| NoWeightsFound.

(** A computation of the weights module: the records logged, in order,
    and how the computation ended. *)
Record logged (A : Type) : Type := Logged {
  records : list log_record;
  outcome : result A
}.
Arguments Logged {A} records outcome.
Arguments records {A} l.
Arguments outcome {A} l.

#[global] Instance logged_ret : MRet logged := fun A a => Logged [] (Ok a).
#[global] Instance logged_bind : MBind logged := fun A B f m =>
  match outcome m with
  | Ok a => Logged (records m ++ records (f a)) (outcome (f a))
  | Raise e => Logged (records m) (Raise e)
  end.

Definition logger_info (r : log_record) : logged unit := Logged [r] (Ok ()).
Definition lift {A} (r : result A) : logged A := Logged [] r.

(** [if not (0.0 < probability < 1.0): logger.info(...)]
    [return math.log(probability / (1 - probability))], on a finite
    double; [logit_float] below takes every double. *)
Definition logit (probability : R) : logged R :=
  _ ← (if decide (0 < probability ∧ probability < 1) then mret ()
       else logger_info (ProbabilityOutOfRange probability));
  lift (odds ← truediv probability (1 - probability); math_log odds).

(** [f"{feature}:{state}"] *)
Definition weight_key (feature state : string) : string :=
  feature +:+ ":" +:+ state.

(** [for state, probability in states.items():]
    [    weights[f"{feature}:{state}"] = logit(probability) - bias] *)
Fixpoint for_states (feature : string) (bias : R) (sts : json_object R)
    (weights : gmap string R) : logged (gmap string R) :=
  match sts with
  | [] => mret weights
  | (state, probability) :: sts' =>
      l ← logit probability;
      for_states feature bias sts' (<[weight_key feature state := l - bias]> weights)
  end.

(** [for feature, states in raw_probs.items(): ...] *)
Fixpoint for_features (bias : R) (raw_probs : json_object (json_object R))
    (weights : gmap string R) : logged (gmap string R) :=
  match raw_probs with
  | [] => mret weights
  | (feature, sts) :: raw_probs' =>
      weights' ← for_states feature bias sts weights;
      for_features bias raw_probs' weights'
  end.

(** [train_and_save_weights()] on finite doubles: the pair returned,
    together with the files after [weights.json] has been written.
    [train_and_save_weights_float] below takes every double. *)
Definition train_and_save_weights (settings : Settings) (fs : files)
    : logged (files * (R * gmap string R)) :=
  _ ← (match raw_probs_json fs with
       | Some _ => mret ()
       | None => logger_info MissingRawProbs
       end);
  raw_probs ← lift (match raw_probs_json fs with
                    | Some raw => Ok raw
                    | None => Raise FileNotFoundError
                    end);
  bias ← logit (base_fraud_rate settings);
  weights ← for_features bias raw_probs ∅;
  _ ← logger_info WeightsWritten;
  mret ({| priors_json := priors_json fs;
           raw_probs_json := raw_probs_json fs;
           weights_json := Some (bias, weights) |}, (bias, weights)).

(** [load_weights()] *)
Definition load_weights (settings : Settings) (fs : files)
    : logged (files * (R * gmap string R)) :=
  if build_weights settings then train_and_save_weights settings fs
  else match weights_json fs with
       | None => _ ← logger_info NoWeightsFound; train_and_save_weights settings fs
       | Some (bias, weights) => mret (fs, (bias, weights))
       end.

(** ** pgmpy: conditional probability tables *)

(** The fields of a [TabularCPD].  [cpd_values] has one row per state of
    [variable] and one column per combination of parent states. *)
Record TabularCPD : Type := {
  variable : string;
  variable_card : nat;
  cpd_values : list (list R);
  evidence : list string;
  evidence_card : list nat;
  state_names : json_object (list string)
}.

(** [np.prod(evidence_card)] *)
Definition np_prod (cards : list nat) : nat := foldr Nat.mul 1%nat cards.

(** Modelled from the spec: the constructor of pgmpy's [TabularCPD], a
    class of the library that is not among the sources.  The spec's data
    model asks of a CPT that its table covers the full cartesian product
    of the parent states, and of a variable that its states are unique.
    The constructor is given the cardinalities apart from the state
    names, and holds the table to the cardinalities: [values] must be of
    shape [(variable_card, prod(evidence_card))], and no variable may
    name a state twice; otherwise it raises [ValueError]. *)
Definition new_TabularCPD (variable : string) (variable_card : nat)
    (values : list (list R)) (evidence : list string)
    (evidence_card : list nat) (state_names : json_object (list string))
    : result TabularCPD :=
  if decide (length evidence_card = length evidence
             ∧ length values = variable_card
             ∧ Forall (λ row, length row = np_prod evidence_card) values
             ∧ Forall (λ entry, NoDup entry.2) state_names)
  then Ok {| variable := variable; variable_card := variable_card;
             cpd_values := values; evidence := evidence;
             evidence_card := evidence_card; state_names := state_names |}
  else Raise ValueError_shape.

(** ** freq_app/model/priors.py *)

(** [load_priors()] *)
Definition load_priors (fs : files) : result (json_object prior_spec) :=
  match priors_json fs with
  | Some priors => Ok priors
  | None => Raise FileNotFoundError
  end.

(** [build_priors()]: one unconditional CPD per entry of the file. *)
Definition build_priors (fs : files) : result (list TabularCPD) :=
  priors_data ← load_priors fs;
  for_append (λ '(node_name, spec),
      new_TabularCPD node_name (length (states spec))
        (map (λ probability, [probability]) (values spec))
        [] [] [(node_name, states spec)])
    priors_data.

(** ** freq_app/model/model_builder.py *)

(** [itertools.product] of five iterables: the first varies slowest, the
    last fastest. *)
Definition product5 {A B C D E} (la : list A) (lb : list B) (lc : list C)
    (ld : list D) (le : list E) : list (A * B * C * D * E) :=
  a ← la; b ← lb; c ← lc; d ← ld; e ← le; [(a, b, c, d, e)].

(** The body of the loop of [build_fraud_cpd]: the five weights are
    looked up from left to right, then added to the bias. *)
Definition fraud_probability (bias : R) (WEIGHTS : gmap string R)
    (tuple : string * string * string * string * string) : result R :=
  let '(p_state, d_state, s_state, x_state, m_state) := tuple in
  w_p ← subscript WEIGHTS ("Porting:" +:+ p_state);
  w_d ← subscript WEIGHTS ("DarkWeb:" +:+ d_state);
  w_s ← subscript WEIGHTS ("StateMatch:" +:+ s_state);
  w_x ← subscript WEIGHTS ("ProxyFlag:" +:+ x_state);
  w_m ← subscript WEIGHTS ("MAID_NightDistance:" +:+ m_state);
  sigmoid (bias + w_p + w_d + w_s + w_x + w_m).

(** [FraudBN.build_fraud_cpd()], for the [bias] and [WEIGHTS] that
    [weights.py] holds at module level. *)
Definition build_fraud_cpd (fs : files) (bias : R) (WEIGHTS : gmap string R)
    : result TabularCPD :=
  priors_data ← load_priors fs;
  porting ← json_get priors_data "Porting";
  darkweb ← json_get priors_data "DarkWeb";
  statematch ← json_get priors_data "StateMatch";
  proxy ← json_get priors_data "ProxyFlag";
  maid ← json_get priors_data "MAID_NightDistance";
  p_fraud_yes ← for_append (fraud_probability bias WEIGHTS)
    (product5 (states porting) (states darkweb) (states statematch)
       (states proxy) (states maid));
  let fraud_cpd_matrix :=
    [p_fraud_yes; map (λ prob, 1 - prob) p_fraud_yes] in
  new_TabularCPD "Fraud" 2 fraud_cpd_matrix
    ["Porting"; "DarkWeb"; "StateMatch"; "ProxyFlag"; "MAID_NightDistance"]
    [3; 4; 2; 2; 4]%nat
    [("Fraud", ["Fraud"; "Legit"]);
     ("Porting", states porting);
     ("DarkWeb", states darkweb);
     ("StateMatch", states statematch);
     ("ProxyFlag", states proxy);
     ("MAID_NightDistance", states maid)].

(** ** pgmpy: the network and its validation *)

(** A [DiscreteBayesianNetwork]: the edges it was created from and the
    CPDs added to it.  Its nodes are the end points of its edges. *)
Record Network : Type := {
  edges : list (string * string);
  cpds : list TabularCPD
}.

Definition nodes (model : Network) : list string :=
  remove_dups (e ← edges model; [e.1; e.2]).

Definition parents (model : Network) (node : string) : list string :=
  (filter (λ e, e.2 = node) (edges model)).*1.

(** [model.add_cpds(...)] *)
Definition add_cpds (model : Network) (new : list TabularCPD) : Network :=
  {| edges := edges model; cpds := cpds model ++ new |}.

(** The states a CPD lists for a variable, and the cardinality it gives
    it. *)
Definition states_in (cpd : TabularCPD) (var : string) : list string :=
  match json_get (state_names cpd) var with
  | Ok sts => sts
  | Raise _ => []
  end.

Definition card_in (cpd : TabularCPD) (var : string) : option nat :=
  if decide (variable cpd = var) then Some (variable_card cpd)
  else (list_to_map (zip (evidence cpd) (evidence_card cpd)) : gmap string nat) !! var.

Definition sum_list (l : list R) : R := foldr Rplus 0 l.

(** The entries of column [j] of a table, one per row. *)
Definition column (table : list (list R)) (j : nat) : list R :=
  omap (λ row, row !! j) table.

Definition ncols (table : list (list R)) : nat :=
  match table with
  | [] => 0
  | row :: _ => length row
  end.

(** The tolerance of the spec's data model for a distribution summing
    to one. *)
Definition tolerance : R := / 10 ^ 6.

(** The four checks of validation (spec 3 and 4.3). *)

(** Every variable has exactly one CPT, and every CPT a variable. *)
Definition one_cpt_per_variable (model : Network) : Prop :=
  Forall (λ node,
    length (filter (λ cpd, variable cpd = node) (cpds model)) = 1%nat)
    (nodes model)
  ∧ Forall (λ cpd, variable cpd ∈ nodes model) (cpds model).

(** The parents of each CPT are the variable's incoming edges, and each
    parent is the variable its own CPT describes: same states, same
    cardinality. *)
Definition parents_match_edges (model : Network) : Prop :=
  Forall (λ cpd,
    (list_to_set (evidence cpd) : gset string)
      = list_to_set (parents model (variable cpd))
    ∧ Forall (λ parent,
        Forall (λ own, variable own = parent →
            card_in cpd parent = Some (variable_card own)
            ∧ states_in cpd parent = states_in own parent)
          (cpds model))
        (evidence cpd))
    (cpds model).

(** Every column of every CPT sums to one within the tolerance. *)
Definition distributions_sum_to_one (model : Network) : Prop :=
  Forall (λ cpd,
    Forall (λ j, Rabs (sum_list (column (cpd_values cpd) j) - 1) <= tolerance)
      (seq 0 (ncols (cpd_values cpd))))
    (cpds model).

(** Acyclicity is decided by peeling: a round removes the nodes that
    have no parent left; a graph on [n] nodes is acyclic when [n] rounds
    remove every node. *)
Definition has_parent_in (es : list (string * string)) (vs : list string)
    (v : string) : Prop :=
  Exists (λ e, e.2 = v ∧ e.1 ∈ vs) es.

Fixpoint peel (rounds : nat) (es : list (string * string))
    (vs : list string) : list string :=
  match rounds with
  | O => vs
  | S n => peel n es (filter (has_parent_in es vs) vs)
  end.

Definition edges_acyclic (model : Network) : Prop :=
  peel (length (nodes model)) (edges model) (nodes model) = [].

(** Modelled from the spec: [check_model] of pgmpy's
    [DiscreteBayesianNetwork], a method of the library that is not among
    the sources; it is the spec's [validate] (4.3).  It checks that every
    variable has exactly one CPT, that CPT parent lists match declared
    edges, that every CPT's distributions sum to 1 within tolerance and
    that the edge set is acyclic; on a violation it fails with
    [ModelInconsistencyError], listing the check that failed; otherwise
    it returns [True]. *)
Definition check_model (model : Network) : result bool :=
  if decide (one_cpt_per_variable model) then
    if decide (parents_match_edges model) then
      if decide (distributions_sum_to_one model) then
        if decide (edges_acyclic model) then Ok true
        else Raise (ModelInconsistencyError EdgesAcyclic)
      else Raise (ModelInconsistencyError DistributionsSumToOne)
    else Raise (ModelInconsistencyError ParentsMatchEdges)
  else Raise (ModelInconsistencyError OneCptPerVariable).

(** [assert condition, "..."] *)
Definition assert (condition : bool) : result unit :=
  if condition then Ok () else Raise AssertionError.

(** [FraudBN.__init__()] *)
Definition FraudBN_init : Network :=
  {| edges := [("Porting", "Fraud"); ("DarkWeb", "Fraud");
               ("StateMatch", "Fraud"); ("ProxyFlag", "Fraud");
               ("MAID_NightDistance", "Fraud")];
     cpds := [] |}.

(** [FraudBN.assemble()], on the model that [__init__] made. *)
Definition assemble (fs : files) (bias : R) (WEIGHTS : gmap string R)
    : result Network :=
  fraud_cpd ← build_fraud_cpd fs bias WEIGHTS;
  prior_cpds ← build_priors fs;
  let model := add_cpds FraudBN_init (prior_cpds ++ [fraud_cpd]) in
  valid ← check_model model;
  _ ← assert valid;
  Ok model.

(** ** pgmpy: inference *)

(** The CPD a network holds for a variable. *)
Definition get_cpds (model : Network) (node : string) : option TabularCPD :=
  head (filter (λ cpd, variable cpd = node) (cpds model)).

(** An evidence mapping is valid when each variable it names is a node
    of the network and the value it gives is one of the states that the
    node's CPT declares. *)
Definition valid_evidence (model : Network) (ev : gmap string string) : Prop :=
  map_Forall (λ var value,
    var ∈ nodes model
    ∧ ∃ cpd, get_cpds model var = Some cpd ∧ value ∈ states_in cpd var) ev.

#[global] Instance valid_evidence_dec model ev : Decision (valid_evidence model ev).
Proof.
  apply map_Forall_dec. intros var value. apply and_dec; [apply _ |].
  destruct (get_cpds model var) as [cpd |].
  - destruct (decide (value ∈ states_in cpd var)) as [Hin | Hout].
    + left. eauto.
    + right. intros (? & [= <-] & ?). tauto.
  - right. intros (? & [=] & _).
Defined.

(** The factor of a root variable once the evidence is fixed: the
    observed state alone when the variable is observed, otherwise its
    states weighted by its prior CPT. *)
Definition prior_factor (model : Network) (var : string) : list (string * R) :=
  match get_cpds model var with
  | Some cpd => zip (states_in cpd var) (column (cpd_values cpd) 0)
  | None => []
  end.

Definition reduced_factor (model : Network) (ev : gmap string string)
    (var : string) : list (string * R) :=
  match ev !! var with
  | Some observed => [(observed, 1)]
  | None => prior_factor model var
  end.

(** The table of the target CPT as the spec's data model has it: a
    mapping from parent-state tuples to distributions.  The tuples are
    in the order of the columns: first parent slowest, last fastest. *)
Definition cpt_table (cpd : TabularCPD)
    : list (string * string * string * string * string * list R) :=
  zip (product5 (states_in cpd "Porting") (states_in cpd "DarkWeb")
         (states_in cpd "StateMatch") (states_in cpd "ProxyFlag")
         (states_in cpd "MAID_NightDistance"))
      (map (column (cpd_values cpd)) (seq 0 (ncols (cpd_values cpd)))).

Fixpoint cpt_row (table : list (string * string * string * string * string * list R))
    (tuple : string * string * string * string * string) : list R :=
  match table with
  | [] => []
  | (tuple', distribution) :: table' =>
      if decide (tuple' = tuple) then distribution else cpt_row table' tuple
  end.

(** The mass of target state number [k] after the parents are summed
    out: over every combination of the reduced parent factors, the
    product of the weights times the entry of the CPT row; nothing when
    the evidence fixes the target to another state. *)
Definition target_mass (model : Network) (ev : gmap string string)
    (fraud_cpd : TabularCPD) (k : nat) : R :=
  let mass := sum_list
    (map (λ '((p, wp), (d, wd), (s, ws), (x, wx), (m, wm)),
        wp * wd * ws * wx * wm
        * default 0 (cpt_row (cpt_table fraud_cpd) (p, d, s, x, m) !! k))
      (product5 (reduced_factor model ev "Porting")
         (reduced_factor model ev "DarkWeb")
         (reduced_factor model ev "StateMatch")
         (reduced_factor model ev "ProxyFlag")
         (reduced_factor model ev "MAID_NightDistance"))) in
  match ev !! "Fraud" with
  | Some observed =>
      if decide (states_in fraud_cpd "Fraud" !! k = Some observed) then mass
      else 0
  | None => mass
  end.

(** Modelled from the spec: [VariableElimination(model).query] of pgmpy
    for the variable ["Fraud"], a method of the library that is not among
    the sources; it is the spec's [query] (4.4) on this network's shape,
    five root evidence variables feeding one sink.  Evidence for a
    variable not in the network, or a value not in that variable's
    declared states, fails with [InvalidEvidenceError].  Otherwise every
    CPT is reduced by the evidence, the reduced factors are multiplied,
    every variable but the target is summed out (an unobserved parent is
    marginalized with its prior CPT as weighting distribution) and the
    result is normalized over the target's states.  The distribution is
    returned as the list of the target's state names with their
    probabilities. *)
Definition query (model : Network) (ev : gmap string string)
    : result (list (string * R)) :=
  if decide (valid_evidence model ev) then
    match get_cpds model "Fraud" with
    | Some fraud_cpd =>
        let masses :=
          map (target_mass model ev fraud_cpd) (seq 0 (variable_card fraud_cpd)) in
        Ok (zip (states_in fraud_cpd "Fraud")
              (map (λ mass, mass / sum_list masses) masses))
    | None => Raise (ModelInconsistencyError OneCptPerVariable)
    end
  else Raise InvalidEvidenceError.

(** [dict(zip(names, values))]: a later pair replaces an earlier one with
    the same key. *)
Definition dict (pairs : list (string * R)) : gmap string R :=
  foldl (λ d pair, <[pair.1 := pair.2]> d) ∅ pairs.

(** [FraudBN.score_case(evidence)] *)
Definition score_case (model : Network) (ev : gmap string string)
    : result (gmap string R) :=
  fraud_distribution ← query model ev;
  let fraud_score := dict fraud_distribution in
  p_fraud ← subscript fraud_score "Fraud";
  p_legit ← subscript fraud_score "Legit";
  Ok (<["Legit" := p_legit]> (<["Fraud" := p_fraud]> ∅)).

(** ** Certified bounds on the exponential *)

(** Fixed-point numbers with [k] fractional bits, held in [Z].  Squaring
    rounds down, so that repeated squaring of a lower bound of
    [exp (x / 2^m)] stays a lower bound. *)
Definition sq_down (k a : Z) : Z := (a * a / 2 ^ k)%Z.

Fixpoint iter_sq (m : nat) (k a : Z) : Z :=
  match m with
  | O => a
  | S m' => iter_sq m' k (sq_down k a)
  end.

(** A lower bound of [2^k * exp (num / den)]: [1 + x / 2^m], rounded
    down, squared [m] times. *)
Definition exp_lower (k : Z) (m : nat) (num den : Z) : Z :=
  iter_sq m k (2 ^ k * (den * 2 ^ Z.of_nat m + num) / (den * 2 ^ Z.of_nat m))%Z.

(** ** Vocabulary of the properties *)

(** A probability the logit is defined at. *)
Definition in_range (p : R) : Prop := 0 < p ∧ p < 1.

#[global] Instance in_range_dec (p : R) : Decision (in_range p).
Proof. unfold in_range. apply _. Defined.

(** The (feature, state, probability) triples of one feature, and of
    [raw_probs.json], in the order in which [train_and_save_weights]
    visits them. *)
Definition state_triples (feature : string) (sts : json_object R)
    : list (string * string * R) :=
  '(state, probability) ← sts; [(feature, state, probability)].

Definition raw_triples (raw_probs : json_object (json_object R))
    : list (string * string * R) :=
  '(feature, sts) ← raw_probs; '(state, probability) ← sts;
  [(feature, state, probability)].

(** The probabilities given to weight derivation: the base rate, then
    the raw per-state probabilities. *)
Definition input_probabilities (settings : Settings)
    (raw_probs : json_object (json_object R)) : list R :=
  base_fraud_rate settings :: (raw_triples raw_probs).*2.

(** The exception [logit] ends with on a probability out of range. *)
Definition logit_exn (p : R) : exn :=
  if decide (p = 1) then ZeroDivisionError else ValueError_math_domain.

(** [weights.json] once derivation has succeeded. *)
Definition written (fs : files) (bias : R) (weights : gmap string R) : files :=
  {| priors_json := priors_json fs;
     raw_probs_json := raw_probs_json fs;
     weights_json := Some (bias, weights) |}.

(** The weights dict after the assignments of the loop, from left to
    right, for triples that are all in range. *)
Definition assign_weights (bias : R) (triples : list (string * string * R))
    (weights : gmap string R) : gmap string R :=
  foldl (λ w '(feature, state, p),
           <[weight_key feature state := ln (p / (1 - p)) - bias]> w)
    weights triples.

(** Inputs of weight derivation used as examples below: a base rate of
    1; two features whose states collide on the key ["A:B:C"]; the
    scenario of the spec. *)
Definition no_files : files :=
  {| priors_json := None; raw_probs_json := None; weights_json := None |}.

Definition with_raw_probs (raw : json_object (json_object R)) : files :=
  {| priors_json := None; raw_probs_json := Some raw; weights_json := None |}.

Definition base_rate_one : Settings :=
  {| build_weights := true; base_fraud_rate := 1 |}.

Definition base_rate_half : Settings :=
  {| build_weights := true; base_fraud_rate := 1 / 2 |}.

Definition colliding_raw_probs : json_object (json_object R) :=
  [("A", [("B:C", 1 / 4)]); ("A:B", [("C", 1 / 2)])].

Definition scenario_settings : Settings :=
  {| build_weights := true; base_fraud_rate := 2 / 100 |}.

Definition scenario_raw_probs : json_object (json_object R) :=
  [("Porting", [("Recent", 25 / 100)])].

Definition parent_states (fs : files) (node : string) : result (list string) :=
  priors_data ← load_priors fs; spec ← json_get priors_data node; Ok (states spec).

Definition tuple_keys (tuple : string * string * string * string * string) : list string :=
  let '(p_state, d_state, s_state, x_state, m_state) := tuple in
  ["Porting:" +:+ p_state; "DarkWeb:" +:+ d_state; "StateMatch:" +:+ s_state;
   "ProxyFlag:" +:+ x_state; "MAID_NightDistance:" +:+ m_state].

Definition column_index (nd ns nx nm i1 i2 i3 i4 i5 : nat) : nat :=
  ((((i1 * nd + i2) * ns + i3) * nx + i4) * nm + i5)%nat.

Definition fraud_cpd_of (ps ds ss xs ms : list string) (p_fraud_yes : list R)
    : TabularCPD :=
  {| variable := "Fraud"; variable_card := 2;
     cpd_values := [p_fraud_yes; map (λ prob, 1 - prob) p_fraud_yes];
     evidence := ["Porting"; "DarkWeb"; "StateMatch"; "ProxyFlag"; "MAID_NightDistance"];
     evidence_card := [3; 4; 2; 2; 4]%nat;
     state_names := [("Fraud", ["Fraud"; "Legit"]); ("Porting", ps); ("DarkWeb", ds);
                     ("StateMatch", ss); ("ProxyFlag", xs);
                     ("MAID_NightDistance", ms)] |}.

Definition weights_cover (WEIGHTS : gmap string R) (lo : R) (feature : string)
    (sts : list string) : Prop :=
  Forall (λ st, ∃ w, WEIGHTS !! weight_key feature st = Some w ∧ lo <= w) sts.

Definition example_priors : json_object prior_spec :=
  [("Porting", {| states := ["Old"; "Moderate"; "Recent"];
                  values := [6 / 10; 3 / 10; 1 / 10] |});
   ("DarkWeb", {| states := ["None"; "Low"; "Medium"; "High"];
                  values := [7 / 10; 1 / 10; 1 / 10; 1 / 10] |});
   ("StateMatch", {| states := ["Yes"; "No"]; values := [9 / 10; 1 / 10] |});
   ("ProxyFlag", {| states := ["No"; "Yes"]; values := [9 / 10; 1 / 10] |});
   ("MAID_NightDistance", {| states := ["Near"; "Moderate"; "Far"; "Distant"];
                             values := [7 / 10; 1 / 10; 1 / 10; 1 / 10] |})].

Definition example_raw_probs : json_object (json_object R) :=
  [("Porting", [("Old", 1 / 100); ("Moderate", 5 / 100); ("Recent", 25 / 100)]);
   ("DarkWeb", [("None", 1 / 100); ("Low", 2 / 100); ("Medium", 10 / 100);
                ("High", 30 / 100)]);
   ("StateMatch", [("Yes", 1 / 100); ("No", 20 / 100)]);
   ("ProxyFlag", [("No", 1 / 100); ("Yes", 15 / 100)]);
   ("MAID_NightDistance", [("Near", 1 / 100); ("Moderate", 3 / 100);
                           ("Far", 10 / 100); ("Distant", 30 / 100)])].

Definition example_settings : Settings :=
  {| build_weights := true; base_fraud_rate := 2 / 100 |}.

Definition example_files : files :=
  {| priors_json := Some example_priors;
     raw_probs_json := Some example_raw_probs;
     weights_json := None |}.

Definition example_bias : R := ln (2 / 100 / (1 - 2 / 100)).

Definition example_weights : gmap string R :=
  assign_weights example_bias (raw_triples example_raw_probs) ∅.

Definition required_keys (ps ds ss xs ms : list string) : list string :=
  product5 ps ds ss xs ms ≫= tuple_keys.


Definition prior_cpd_of (node_name : string) (spec : prior_spec) : TabularCPD :=
  {| variable := node_name; variable_card := length (states spec);
     cpd_values := map (λ probability, [probability]) (values spec);
     evidence := []; evidence_card := [];
     state_names := [(node_name, states spec)] |}.

Definition EVIDENCE_NODES : list string :=
  ["Porting"; "DarkWeb"; "StateMatch"; "ProxyFlag"; "MAID_NightDistance"].

Definition prior_ok (model : Network) (node : string) (sts : list string) : Prop :=
  ∃ spec, get_cpds model node = Some (prior_cpd_of node spec)
    ∧ states spec = sts
    ∧ length (values spec) = length sts
    ∧ Rabs (sum_list (values spec) - 1) <= tolerance.

(** Evidence over the five evidence nodes, each value one of the states
    that the priors file declares for its node. *)
Definition declared_evidence (fs : files) (ev : gmap string string) : Prop :=
  map_Forall (λ var value,
    var ∈ EVIDENCE_NODES
    ∧ match parent_states fs var with
      | Ok sts => value ∈ sts
      | Raise _ => False
      end) ev.

#[global] Instance declared_evidence_dec fs ev : Decision (declared_evidence fs ev).
Proof.
  apply map_Forall_dec. intros var value. apply and_dec; [apply _ |].
  destruct (parent_states fs var); apply _.
Defined.

(** ** freq_app/utils/math_utils.py: [bias_for_base_rate] *)

(** What [math_utils.py] sends to [logger.info]. *)
Inductive math_utils_record : Set :=
| BaseRateOutOfRange.

(** [bias_for_base_rate(base_rate)] on a finite double
    ([bias_for_base_rate_float] below takes every double): the records
    logged and how the call ended.
    [if not (0.0 < base_rate < 1.0): logger.info(...)]
    [return math.log(base_rate / (1.0 - base_rate))] *)
Definition bias_for_base_rate (base_rate : R)
    : list math_utils_record * result R :=
  (if decide (0 < base_rate ∧ base_rate < 1) then [] else [BaseRateOutOfRange],
   odds ← truediv base_rate (1 - base_rate); math_log odds).

(** ** Further inputs used as examples *)

(** The defaults of [settings.py]: [BUILD_WEIGHTS] is false and the base
    fraud rate is [DEFAULT_BASE_FRAUD_RATE]. *)
Definition default_settings : Settings :=
  {| build_weights := false; base_fraud_rate := 2 / 100 |}.


(** ** freq_app/service.py and the model file *)

(** The files of a deployment: those the model code reads and
    [prod_model/prod_model.pkl], the pickled network ([None]: the file
    does not exist). *)
Record disk : Type := {
  model_files : files;
  prod_model_pkl : option Network
}.

(** [FraudBN.save()]: [pickle.dump(self.model, file_handle)]. *)
Definition FraudBN_save (d : disk) (model : Network) : disk :=
  {| model_files := model_files d; prod_model_pkl := Some model |}.

(** [FraudBN.load()]: [open] raises when the model file is missing;
    otherwise the network of the new instance is the unpickled one. *)
Definition FraudBN_load (d : disk) : result Network :=
  match prod_model_pkl d with
  | Some loaded_model => Ok loaded_model
  | None => Raise FileNotFoundError
  end.

(** [FraudService.__init__()], for the [bias] and [WEIGHTS] that
    [weights.py] holds at module level: the disk afterwards and the
    network of [self.bn]. *)
Definition FraudService_init (bias : R) (WEIGHTS : gmap string R) (d : disk)
    : result (disk * Network) :=
  match prod_model_pkl d with
  | None =>
      bn ← assemble (model_files d) bias WEIGHTS;
      Ok (FraudBN_save d bn, bn)
  | Some _ =>
      bn ← FraudBN_load d;
      Ok (d, bn)
  end.

(** A deployment in which no model has been saved yet. *)
Definition fresh_disk (fs : files) : disk :=
  {| model_files := fs; prod_model_pkl := None |}.

(** Priors that lack the node [ProxyFlag]. *)
Definition priors_without_ProxyFlag : json_object prior_spec :=
  filter (λ entry, entry.1 ≠ "ProxyFlag") example_priors.

(** ** Doubles that are not finite *)

(** The definitions above take a finite double as a real number.  The
    functions of [math_utils.py] and [weights.py] are also handed the
    other doubles: [json.load] reads [NaN], [Infinity] and [-Infinity],
    and so does the float field of the settings.  [float] adds them, and
    the operations below follow IEEE 754 and Python on them; on finite
    operands they are the operations used above (in [logit] and [sigmoid]
    no sum, difference or quotient of finite doubles overflows). *)
Inductive float : Type :=
| Finite (x : R)
| Infinity (negative : bool)
| NaN.

(** [a < b]: false as soon as one side is not a number. *)
Definition float_lt (a b : float) : Prop :=
  match a, b with
  | Finite x, Finite y => x < y
  | Finite _, Infinity negative => negative = false
  | Infinity negative, Finite _ => negative = true
  | Infinity negative, Infinity negative' => negative = true ∧ negative' = false
  | _, _ => False
  end.

#[global] Instance float_lt_dec (a b : float) : Decision (float_lt a b).
Proof. destruct a, b; cbn; apply _. Defined.

(** [-a] *)
Definition float_neg (a : float) : float :=
  match a with
  | Finite x => Finite (- x)
  | Infinity negative => Infinity (negb negative)
  | NaN => NaN
  end.

(** [a + b] *)
Definition float_add (a b : float) : float :=
  match a, b with
  | Finite x, Finite y => Finite (x + y)
  | Finite _, Infinity negative => Infinity negative
  | Infinity negative, Finite _ => Infinity negative
  | Infinity negative, Infinity negative' =>
      if bool_decide (negative = negative') then Infinity negative else NaN
  | _, _ => NaN
  end.

(** [a - b] *)
Definition float_sub (a b : float) : float :=
  match a, b with
  | Finite x, Finite y => Finite (x - y)
  | Finite _, Infinity negative => Infinity (negb negative)
  | Infinity negative, Finite _ => Infinity negative
  | Infinity negative, Infinity negative' =>
      if bool_decide (negative = negative') then NaN else Infinity negative
  | _, _ => NaN
  end.

(** [a / b]: Python raises [ZeroDivisionError] for a zero divisor,
    whatever the dividend; otherwise the quotient is the IEEE one. *)
Definition float_truediv (a b : float) : result float :=
  match b with
  | Finite y =>
      if decide (y = 0) then Raise ZeroDivisionError
      else Ok match a with
              | Finite x => Finite (x / y)
              | Infinity negative => Infinity (xorb negative (bool_decide (y < 0)))
              | NaN => NaN
              end
  | Infinity _ => Ok match a with Finite _ => Finite 0 | _ => NaN end
  | NaN => Ok NaN
  end.

(** [math.log(x)]: not-a-number and [inf] pass through; [-inf] is
    outside the domain like every non-positive number. *)
Definition math_log_float (x : float) : result float :=
  match x with
  | Finite x => Finite <$> math_log x
  | Infinity false => Ok (Infinity false)
  | Infinity true => Raise ValueError_math_domain
  | NaN => Ok NaN
  end.

(** [math.exp(x)]: [OverflowError] only for a finite argument whose
    exponential is no finite double; [exp(inf)] is [inf], [exp(-inf)] is
    [0.0]. *)
Definition math_exp_float (x : float) : result float :=
  match x with
  | Finite x => Finite <$> math_exp x
  | Infinity false => Ok (Infinity false)
  | Infinity true => Ok (Finite 0)
  | NaN => Ok NaN
  end.

(** [sigmoid], on every double.
    [return 1.0 / (1.0 + math.exp(-input_val))] *)
Definition sigmoid_float (input_val : float) : result float :=
  e ← math_exp_float (float_neg input_val);
  float_truediv (Finite 1) (float_add (Finite 1) e).

(** What [weights.py] sends to [logger.info], with the probability a
    double of any kind. *)
Inductive float_log_record : Type :=
| FloatOutOfRange (probability : float)
| FloatMissingRawProbs
| FloatWeightsWritten.

(** Sequencing of computations that log: the records of the first, then
    those of the second unless the first raised. *)
Definition and_then {L A B} (m : list L * result A)
    (f : A → list L * result B) : list L * result B :=
  match m.2 with
  | Ok a => (m.1 ++ (f a).1, (f a).2)
  | Raise e => (m.1, Raise e)
  end.

(** [logit], on every double.
    [if not (0.0 < probability < 1.0): logger.info(...)]
    [return math.log(probability / (1 - probability))] *)
Definition logit_float (probability : float)
    : list float_log_record * result float :=
  (if decide (float_lt (Finite 0) probability ∧ float_lt probability (Finite 1))
   then [] else [FloatOutOfRange probability],
   odds ← float_truediv probability (float_sub (Finite 1) probability);
   math_log_float odds).

(** [bias_for_base_rate], on every double. *)
Definition bias_for_base_rate_float (base_rate : float)
    : list math_utils_record * result float :=
  (if decide (float_lt (Finite 0) base_rate ∧ float_lt base_rate (Finite 1))
   then [] else [BaseRateOutOfRange],
   odds ← float_truediv base_rate (float_sub (Finite 1) base_rate);
   math_log_float odds).

(** [for state, probability in states.items():]
    [    weights[f"{feature}:{state}"] = logit(probability) - bias] *)
Fixpoint for_states_float (feature : string) (bias : float)
    (sts : json_object float) (weights : gmap string float)
    : list float_log_record * result (gmap string float) :=
  match sts with
  | [] => ([], Ok weights)
  | (state, probability) :: sts' =>
      and_then (logit_float probability) (λ l,
        for_states_float feature bias sts'
          (<[weight_key feature state := float_sub l bias]> weights))
  end.

(** [for feature, states in raw_probs.items(): ...] *)
Fixpoint for_features_float (bias : float)
    (raw_probs : json_object (json_object float)) (weights : gmap string float)
    : list float_log_record * result (gmap string float) :=
  match raw_probs with
  | [] => ([], Ok weights)
  | (feature, sts) :: raw_probs' =>
      and_then (for_states_float feature bias sts weights) (λ weights',
        for_features_float bias raw_probs' weights')
  end.

(** [train_and_save_weights()], on every double: for a base fraud rate
    and the content of [raw_probs.json] ([None]: the file does not
    exist), the records logged and the pair returned, which is also the
    payload written to [weights.json]. *)
Definition train_and_save_weights_float (base_fraud_rate : float)
    (raw_probs_file : option (json_object (json_object float)))
    : list float_log_record * result (float * gmap string float) :=
  match raw_probs_file with
  | None => ([FloatMissingRawProbs], Raise FileNotFoundError)
  | Some raw_probs =>
      and_then (logit_float base_fraud_rate) (λ bias,
      and_then (for_features_float bias raw_probs ∅) (λ weights,
        ([FloatWeightsWritten], Ok (bias, weights))))
  end.

(** ** The keys [build_fraud_cpd] looks up *)

(** The first key of a list, in order, that the weights lack. *)
Fixpoint first_absent (WEIGHTS : gmap string R) (keys : list string)
    : option string :=
  match keys with
  | [] => None
  | k :: keys' =>
      match WEIGHTS !! k with
      | None => Some k
      | Some _ => first_absent WEIGHTS keys'
      end
  end.





(** * Properties *)

(** ** The exponential and its bounds *)

Lemma exp_ge_1_plus (x : R) : 1 + x <= exp x.
Proof.
  destruct (Req_dec_T x 0) as [-> | Hx].
  - rewrite exp_0. lra.
  - left. by apply exp_ineq1.
Qed.

Lemma exp_double (u : R) : exp (2 * u) = exp u * exp u.
Proof. replace (2 * u) with (u + u) by lra. apply exp_plus. Qed.

Lemma sq_down_bound (k a : Z) (s u : R) :
  (0 <= k)%Z → s = IZR (2 ^ k) → (0 <= a)%Z → IZR a <= s * exp u →
  (0 <= sq_down k a)%Z ∧ IZR (sq_down k a) <= s * exp (2 * u).
Proof.
  intros Hk -> Ha Hb.
  assert (Hp : (0 < 2 ^ k)%Z) by (apply Z.pow_pos_nonneg; lia).
  assert (Hs : 0 < IZR (2 ^ k)) by (apply IZR_lt in Hp; exact Hp).
  split; [unfold sq_down; apply Z.div_pos; nia |].
  assert (Hfl : (2 ^ k * sq_down k a <= a * a)%Z)
    by (unfold sq_down; apply Z.mul_div_le; lia).
  apply IZR_le in Hfl. rewrite !mult_IZR in Hfl.
  assert (Ha' : 0 <= IZR a) by (apply IZR_le in Ha; exact Ha).
  assert (Hsq : IZR a * IZR a <= (IZR (2 ^ k) * exp u) * (IZR (2 ^ k) * exp u))
    by (apply Rmult_le_compat; lra).
  rewrite exp_double.
  apply (Rmult_le_reg_l (IZR (2 ^ k))); [exact Hs |]. lra.
Qed.

Lemma iter_sq_bound (m : nat) (k a : Z) (s u : R) :
  (0 <= k)%Z → s = IZR (2 ^ k) → (0 <= a)%Z → IZR a <= s * exp u →
  IZR (iter_sq m k a) <= s * exp (2 ^ m * u).
Proof.
  intros Hk Hs. revert a u. induction m as [| m IH]; intros a u Ha Hb; simpl.
  - by rewrite Rmult_1_l.
  - destruct (sq_down_bound k a s u Hk Hs Ha Hb) as [Ha' Hb'].
    specialize (IH _ _ Ha' Hb').
    by replace (2 * 2 ^ m * u) with (2 ^ m * (2 * u)) by lra.
Qed.

Lemma pow2_IZR (m : nat) : IZR (2 ^ Z.of_nat m) = 2 ^ m.
Proof. by rewrite <- pow_IZR. Qed.

(** [exp_lower] is a lower bound of the exponential. *)
Lemma exp_lower_bound (k : Z) (m : nat) (num den : Z) :
  (0 <= k)%Z → (0 < den)%Z → (0 <= den * 2 ^ Z.of_nat m + num)%Z →
  IZR (exp_lower k m num den) <= IZR (2 ^ k) * exp (IZR num / IZR den).
Proof.
  intros Hk Hden Hnn. unfold exp_lower.
  set (D := (den * 2 ^ Z.of_nat m)%Z).
  assert (Hpm : (0 < 2 ^ Z.of_nat m)%Z) by (apply Z.pow_pos_nonneg; lia).
  assert (HD : (0 < D)%Z) by (unfold D; nia).
  assert (Hp : (0 < 2 ^ k)%Z) by (apply Z.pow_pos_nonneg; lia).
  assert (HDr : 0 < IZR D) by (apply IZR_lt in HD; exact HD).
  assert (Hdr : 0 < IZR den) by (apply IZR_lt in Hden; exact Hden).
  assert (Hmr : 0 < 2 ^ m) by (apply pow_lt; lra).
  set (u := IZR num / IZR D).
  replace (IZR num / IZR den) with (2 ^ m * u).
  2:{ unfold u, D. rewrite mult_IZR, pow2_IZR. field. split; lra. }
  apply iter_sq_bound; [done | done | |].
  - apply Z.div_pos; [| done]. apply Z.mul_nonneg_nonneg; lia.
  - assert (Hfl : (D * (2 ^ k * (D + num) / D) <= 2 ^ k * (D + num))%Z)
      by (apply Z.mul_div_le; done).
    apply IZR_le in Hfl. rewrite !mult_IZR, plus_IZR in Hfl.
    assert (H1 : 1 + u <= exp u) by apply exp_ge_1_plus.
    assert (Hs : 0 < IZR (2 ^ k)) by (apply IZR_lt in Hp; exact Hp).
    apply (Rmult_le_reg_l (IZR D)); [done |].
    eapply Rle_trans; [exact Hfl |].
    replace (IZR (2 ^ k) * (IZR D + IZR num))
      with (IZR D * (IZR (2 ^ k) * (1 + u))) by (unfold u; field; lra).
    apply Rmult_le_compat_l; [lra |]. apply Rmult_le_compat_l; lra.
Qed.

Lemma DBL_MAX_bounds : IZR (2 ^ 1023) <= DBL_MAX ∧ DBL_MAX < IZR (2 ^ 1024).
Proof.
  unfold DBL_MAX.
  change (2 ^ 1024)%Z with (2 * 2 ^ 1023)%Z.
  rewrite mult_IZR. change 1023%Z with (Z.of_nat 1023). rewrite pow2_IZR.
  assert (Hp : 0 < 2 ^ 1023) by (apply pow_lt; lra).
  assert (He : 0 < / 2 ^ 52 <= 1).
  { assert (H52 : 1 <= 2 ^ 52) by (apply pow_R1_Rle; lra).
    split; [apply Rinv_0_lt_compat; lra |].
    rewrite <- Rinv_1. apply Rinv_le_contravar; lra. }
  split; nra.
Qed.

(** [e^710] is beyond the largest double. *)
Lemma exp_710_overflows : DBL_MAX < exp 710.
Proof.
  pose proof (exp_lower_bound 64 24 710 1 ltac:(lia) ltac:(lia) ltac:(lia)) as H.
  assert (Hc : (2 ^ 64 * 2 ^ 1024 < exp_lower 64 24 710 1)%Z)
    by (vm_compute; reflexivity).
  apply IZR_lt in Hc. rewrite mult_IZR in Hc.
  assert (Hs : 0 < IZR (2 ^ 64)) by (apply IZR_lt; lia).
  replace (IZR 710 / IZR 1) with 710 in H by lra.
  destruct DBL_MAX_bounds as [_ Hmax].
  apply Rlt_trans with (IZR (2 ^ 1024)); [done |].
  apply (Rmult_lt_reg_l (IZR (2 ^ 64))); [done |]. lra.
Qed.

(** [e^709] is a finite double. *)
Lemma exp_709_finite : exp 709 < DBL_MAX.
Proof.
  pose proof (exp_lower_bound 1100 24 (-709) 1 ltac:(lia) ltac:(lia) ltac:(lia)) as H.
  assert (Hc : (2 ^ 1100 < exp_lower 1100 24 (-709) 1 * 2 ^ 1023)%Z)
    by (vm_compute; reflexivity).
  apply IZR_lt in Hc. rewrite mult_IZR in Hc.
  replace (IZR (-709) / IZR 1) with (- 709) in H by lra.
  assert (He : exp (-709) * exp 709 = 1).
  { rewrite <- exp_plus. replace (-709 + 709) with 0 by lra. apply exp_0. }
  assert (Hs : 0 < IZR (2 ^ 1100)) by (apply IZR_lt; lia).
  assert (Hp : 0 < exp 709) by apply exp_pos.
  assert (Hp2 : 0 < IZR (2 ^ 1023)) by (apply IZR_lt; lia).
  assert (Hp3 : 0 < exp (-709)) by apply exp_pos.
  destruct DBL_MAX_bounds as [Hmin _].
  apply Rlt_le_trans with (IZR (2 ^ 1023)); [nra | done].
Qed.

Lemma exp_le_mono (x y : R) : x <= y → exp x <= exp y.
Proof.
  intros [Hlt | ->]; [left; by apply exp_increasing | right; done].
Qed.

(** ** [sigmoid] *)

Lemma sigmoid_finite (x : R) :
  exp (- x) <= DBL_MAX → sigmoid x = Ok (1 / (1 + exp (- x))).
Proof.
  intros Hfin. unfold sigmoid, math_exp, truediv.
  destruct (decide (exp (- x) <= DBL_MAX)) as [_ | Hno]; [| done]. simpl.
  destruct (decide (1 + exp (- x) = 0)) as [Hz | _]; [| done].
  pose proof (exp_pos (- x)). lra.
Qed.

Lemma sigmoid_overflow (x : R) :
  DBL_MAX < exp (- x) → sigmoid x = Raise OverflowError.
Proof.
  intros Hinf. unfold sigmoid, math_exp.
  destruct (decide (exp (- x) <= DBL_MAX)) as [Hle | _]; [lra | done].
Qed.

(** From [-709] upwards [sigmoid] returns. *)
Lemma sigmoid_returns (x : R) :
  -709 <= x → sigmoid x = Ok (1 / (1 + exp (- x))).
Proof.
  intros Hx. apply sigmoid_finite.
  apply Rle_trans with (exp 709); [apply exp_le_mono; lra |].
  left. apply exp_709_finite.
Qed.

(** What [sigmoid] returns, when it returns, is the logistic function: a
    probability strictly between 0 and 1. *)
Lemma sigmoid_Ok_inv (x p : R) :
  sigmoid x = Ok p → p = 1 / (1 + exp (- x)) ∧ 0 < p < 1.
Proof.
  intros Hs.
  destruct (decide (exp (- x) <= DBL_MAX)) as [Hle | Hgt].
  - rewrite (sigmoid_finite x Hle) in Hs. injection Hs as <-.
    split; [done |]. pose proof (exp_pos (- x)) as He.
    split.
    + apply Rdiv_lt_0_compat; lra.
    + apply (Rmult_lt_reg_r (1 + exp (- x))); [lra |].
      unfold Rdiv. rewrite Rmult_assoc, Rinv_l; lra.
  - rewrite sigmoid_overflow in Hs by lra. done.
Qed.

(** [sigmoid] is monotone where it returns. *)
Lemma sigmoid_mono (x y p q : R) :
  x <= y → sigmoid x = Ok p → sigmoid y = Ok q → p <= q.
Proof.
  intros Hxy [-> _]%sigmoid_Ok_inv [-> _]%sigmoid_Ok_inv.
  pose proof (exp_pos (- x)). pose proof (exp_pos (- y)).
  assert (exp (- y) <= exp (- x)) by (apply exp_le_mono; lra).
  unfold Rdiv. rewrite !Rmult_1_l. apply Rinv_le_contravar; lra.
Qed.

(** C6 (code_bug).  The claim: for every logit, of large magnitude too,
    [sigmoid] returns a probability, saturating without overflowing or
    raising.  The code evaluates [math.exp(-input_val)] unguarded, and at
    the logit [-710.0] that call raises [OverflowError]: [sigmoid] does
    not return. *)
Theorem sigmoid_raises_at_minus_710 : sigmoid (-710) = Raise OverflowError.
Proof.
  apply sigmoid_overflow. replace (- -710) with 710 by lra.
  apply exp_710_overflows.
Qed.

(** Every logit at or below [-710] meets the same exception. *)
Lemma sigmoid_raises_below (x : R) :
  x <= -710 → sigmoid x = Raise OverflowError.
Proof.
  intros Hx. apply sigmoid_overflow.
  apply Rlt_le_trans with (exp 710); [apply exp_710_overflows |].
  apply exp_le_mono. lra.
Qed.

(** ** [logit] and weight derivation *)

Lemma logit_in_range (p : R) :
  in_range p → logit p = Logged [] (Ok (ln (p / (1 - p)))).
Proof.
  intros [H0 H1]. unfold logit, truediv, math_log.
  destruct (decide (0 < p ∧ p < 1)) as [_ | Hno]; [| tauto].
  destruct (decide (1 - p = 0)) as [Hz | _]; [lra |].
  assert (Hodds : 0 < p / (1 - p)) by (apply Rdiv_lt_0_compat; lra).
  cbn. destruct (decide (0 < p / (1 - p))) as [_ | Hno]; [done | tauto].
Qed.

(** Out of range, the guard logs, the computation goes on, and the
    arithmetic raises. *)
Lemma logit_out_of_range (p : R) :
  ¬ in_range p →
  logit p = Logged [ProbabilityOutOfRange p] (Raise (logit_exn p)).
Proof.
  intros Hout. unfold logit, truediv, math_log, logit_exn, in_range in *.
  destruct (decide (0 < p ∧ p < 1)) as [Hin | _]; [tauto |].
  destruct (decide (p = 1)) as [-> | Hne].
  - destruct (decide (1 - 1 = 0)) as [_ | Hnz]; [done | lra].
  - destruct (decide (1 - p = 0)) as [Hz | _]; [lra |].
    cbn. destruct (decide (0 < p / (1 - p))) as [Hpos | _]; [| done].
    exfalso. apply Hout.
    destruct (Rlt_dec 0 (1 - p)) as [Hd | Hd].
    + assert (0 < p).
      { replace p with (p / (1 - p) * (1 - p)) by (field; lra).
        apply Rmult_lt_0_compat; lra. }
      lra.
    + assert (Hneg : 0 < - (1 - p)) by lra.
      assert (Hq : 0 < - p).
      { replace (- p) with (p / (1 - p) * - (1 - p)) by (field; lra).
        apply Rmult_lt_0_compat; lra. }
      assert (Hinv : / (1 - p) < 0) by (apply Rinv_lt_0_compat; lra).
      unfold Rdiv in Hpos. nra.
Qed.

Lemma logit_exn_cases (p : R) :
  logit_exn p = ZeroDivisionError ∨ logit_exn p = ValueError_math_domain.
Proof. unfold logit_exn. destruct (decide (p = 1)); auto. Qed.

Lemma raw_triples_cons feature sts raw :
  raw_triples ((feature, sts) :: raw) = state_triples feature sts ++ raw_triples raw.
Proof. reflexivity. Qed.

Lemma state_triples_cons feature state p sts :
  state_triples feature ((state, p) :: sts) = (feature, state, p) :: state_triples feature sts.
Proof. reflexivity. Qed.

Lemma assign_weights_app bias t1 t2 w :
  assign_weights bias (t1 ++ t2) w = assign_weights bias t2 (assign_weights bias t1 w).
Proof. unfold assign_weights. apply foldl_app. Qed.

Lemma for_states_in_range feature bias sts w :
  Forall in_range (state_triples feature sts).*2 →
  for_states feature bias sts w
  = Logged [] (Ok (assign_weights bias (state_triples feature sts) w)).
Proof.
  revert w. induction sts as [| [state p] sts IH]; intros w Hall; [done |].
  rewrite state_triples_cons in *. cbn in Hall. apply Forall_cons in Hall as [Hp Hall].
  cbn [for_states]. rewrite (logit_in_range p Hp). cbn.
  rewrite (IH _ Hall). done.
Qed.

Lemma for_states_out_of_range feature bias sts w :
  ¬ Forall in_range (state_triples feature sts).*2 →
  ∃ q, q ∈ (state_triples feature sts).*2 ∧ ¬ in_range q
       ∧ for_states feature bias sts w
         = Logged [ProbabilityOutOfRange q] (Raise (logit_exn q)).
Proof.
  revert w. induction sts as [| [state p] sts IH]; intros w Hbad.
  - exfalso. apply Hbad. constructor.
  - rewrite state_triples_cons in *. cbn in Hbad.
    destruct (decide (in_range p)) as [Hp | Hp].
    + destruct (IH (<[weight_key feature state := ln (p / (1 - p)) - bias]> w))
        as (q & Hq & Hout & Hrun).
      { intros Hall. apply Hbad. by constructor. }
      exists q. split; [cbn; by apply list_elem_of_further |]. split; [done |].
      cbn [for_states]. rewrite (logit_in_range p Hp). cbn. by rewrite Hrun.
    + exists p. split; [cbn; apply list_elem_of_here |]. split; [done |].
      cbn [for_states]. by rewrite (logit_out_of_range p Hp).
Qed.

Lemma for_features_in_range bias raw w :
  Forall in_range (raw_triples raw).*2 →
  for_features bias raw w = Logged [] (Ok (assign_weights bias (raw_triples raw) w)).
Proof.
  revert w. induction raw as [| [feature sts] raw IH]; intros w Hall; [done |].
  rewrite raw_triples_cons, fmap_app in Hall. apply Forall_app in Hall as [H1 H2].
  rewrite raw_triples_cons, assign_weights_app.
  cbn [for_features]. rewrite (for_states_in_range _ _ _ _ H1).
  unfold mbind, logged_bind; cbn [outcome records]. rewrite (IH _ H2). done.
Qed.

Lemma for_features_out_of_range bias raw w :
  ¬ Forall in_range (raw_triples raw).*2 →
  ∃ q, q ∈ (raw_triples raw).*2 ∧ ¬ in_range q
       ∧ for_features bias raw w
         = Logged [ProbabilityOutOfRange q] (Raise (logit_exn q)).
Proof.
  revert w. induction raw as [| [feature sts] raw IH]; intros w Hbad.
  - exfalso. apply Hbad. constructor.
  - rewrite raw_triples_cons, fmap_app in *.
    destruct (decide (Forall in_range (state_triples feature sts).*2)) as [H1 | H1].
    + destruct (IH (assign_weights bias (state_triples feature sts) w))
        as (q & Hq & Hout & Hrun).
      { intros Hall. apply Hbad. by apply Forall_app. }
      exists q. split; [apply elem_of_app; by right |]. split; [done |].
      cbn [for_features]. rewrite (for_states_in_range _ _ _ _ H1). cbn.
      by rewrite Hrun.
    + destruct (for_states_out_of_range feature bias sts w H1) as (q & Hq & Hout & Hrun).
      exists q. split; [apply elem_of_app; by left |]. split; [done |].
      cbn [for_features]. by rewrite Hrun.
Qed.


(** ** Bounds on logarithms *)

Lemma exp_above (k : Z) (m : nat) (num den c1 c2 : Z) :
  (0 <= k)%Z → (0 < den)%Z → (0 <= den * 2 ^ Z.of_nat m + num)%Z → (0 < c2)%Z →
  (c1 * 2 ^ k < c2 * exp_lower k m num den)%Z →
  IZR c1 / IZR c2 < exp (IZR num / IZR den).
Proof.
  intros Hk Hden Hnn Hc2 Hlt.
  pose proof (exp_lower_bound k m num den Hk Hden Hnn) as Hlow.
  apply IZR_lt in Hlt. rewrite !mult_IZR in Hlt.
  assert (Hs : 0 < IZR (2 ^ k)) by (apply IZR_lt, Z.pow_pos_nonneg; lia).
  assert (Hc : 0 < IZR c2) by (apply IZR_lt in Hc2; exact Hc2).
  apply (Rmult_lt_reg_r (IZR c2)); [done |].
  unfold Rdiv at 1. rewrite Rmult_assoc, Rinv_l, Rmult_1_r by lra.
  apply (Rmult_lt_reg_r (IZR (2 ^ k))); [done |].
  eapply Rlt_le_trans; [exact Hlt |].
  rewrite (Rmult_comm (exp _)), Rmult_assoc.
  apply Rmult_le_compat_l; lra.
Qed.

Lemma exp_below (k : Z) (m : nat) (num den c1 c2 : Z) :
  (0 <= k)%Z → (0 < den)%Z → (0 <= den * 2 ^ Z.of_nat m + - num)%Z →
  (0 < c1)%Z → (0 < c2)%Z →
  (c2 * 2 ^ k < c1 * exp_lower k m (- num) den)%Z →
  exp (IZR num / IZR den) < IZR c1 / IZR c2.
Proof.
  intros Hk Hden Hnn Hc1 Hc2 Hlt.
  pose proof (exp_above k m (- num) den c2 c1 Hk Hden Hnn Hc1 Hlt) as Hinv.
  assert (Hd : 0 < IZR den) by (apply IZR_lt in Hden; exact Hden).
  replace (IZR (- num) / IZR den) with (- (IZR num / IZR den)) in Hinv
    by (rewrite opp_IZR; field; lra).
  set (x := IZR num / IZR den) in *.
  assert (He : exp (- x) * exp x = 1).
  { rewrite <- exp_plus. replace (- x + x) with 0 by lra. apply exp_0. }
  assert (H1 : 0 < IZR c1) by (apply IZR_lt in Hc1; exact Hc1).
  assert (H2 : 0 < IZR c2) by (apply IZR_lt in Hc2; exact Hc2).
  pose proof (exp_pos x) as Hp. pose proof (exp_pos (- x)) as Hn.
  apply (Rmult_lt_reg_r (IZR c2)); [done |].
  unfold Rdiv. rewrite Rmult_assoc, Rinv_l, Rmult_1_r by lra.
  apply (Rmult_lt_compat_r (IZR c1)) in Hinv; [| done].
  unfold Rdiv in Hinv. rewrite Rmult_assoc, Rinv_l, Rmult_1_r in Hinv by lra.
  nra.
Qed.

Lemma ln_lt_of_exp (x b : R) : 0 < x → x < exp b → ln x < b.
Proof.
  intros Hx Hlt. rewrite <- (ln_exp b). by apply ln_increasing.
Qed.

Lemma ln_gt_of_exp (x a : R) : exp a < x → a < ln x.
Proof.
  intros Hlt. rewrite <- (ln_exp a). apply ln_increasing; [apply exp_pos | done].
Qed.

Lemma ln_49_bounds : 38917 / 10000 < ln 49 < 38919 / 10000.
Proof.
  split.
  - apply ln_gt_of_exp.
    apply Rlt_le_trans with (49 / 1); [| lra].
    apply (exp_below 64 24 38917 10000 49 1); try lia. vm_compute; reflexivity.
  - apply ln_lt_of_exp; [lra |].
    apply Rle_lt_trans with (49 / 1); [lra |].
    apply (exp_above 64 24 38919 10000 49 1); try lia. vm_compute; reflexivity.
Qed.

Lemma ln_49_3_bounds : 27931 / 10000 < ln (49 / 3) < 27933 / 10000.
Proof.
  split.
  - apply ln_gt_of_exp.
    apply (exp_below 64 24 27931 10000 49 3); try lia. vm_compute; reflexivity.
  - apply ln_lt_of_exp; [lra |].
    apply (exp_above 64 24 27933 10000 49 3); try lia. vm_compute; reflexivity.
Qed.

Lemma train_in_range settings fs raw :
  raw_probs_json fs = Some raw →
  Forall in_range (input_probabilities settings raw) →
  let bias := ln (base_fraud_rate settings / (1 - base_fraud_rate settings)) in
  let weights := assign_weights bias (raw_triples raw) ∅ in
  train_and_save_weights settings fs
  = Logged [WeightsWritten] (Ok (written fs bias weights, (bias, weights))).
Proof.
  intros Hraw [Hb Hall]%Forall_cons. unfold train_and_save_weights, written.
  rewrite Hraw. cbn. rewrite (logit_in_range _ Hb). cbn.
  rewrite (for_features_in_range _ _ _ Hall). cbn. done.
Qed.

Lemma assign_weights_lookup_ne bias triples w k :
  Forall (λ t, weight_key t.1.1 t.1.2 ≠ k) triples →
  assign_weights bias triples w !! k = w !! k.
Proof.
  revert w. induction triples as [| [[f s] p] triples IH]; intros w Hall; [done |].
  apply Forall_cons in Hall as [Hne Hall]. cbn in Hne.
  change (assign_weights bias ((f, s, p) :: triples) w)
    with (assign_weights bias triples (<[weight_key f s := ln (p / (1 - p)) - bias]> w)).
  rewrite (IH _ Hall). by apply lookup_insert_ne.
Qed.

Lemma assign_weights_lookup bias triples w i feature state p :
  triples !! i = Some (feature, state, p) →
  (∀ j f' s' p', (i < j)%nat → triples !! j = Some (f', s', p') →
     weight_key f' s' ≠ weight_key feature state) →
  assign_weights bias triples w !! weight_key feature state
  = Some (ln (p / (1 - p)) - bias).
Proof.
  revert w i. induction triples as [| [[f s] q] triples IH]; intros w i Hi Hlater; [done |].
  change (assign_weights bias ((f, s, q) :: triples) w)
    with (assign_weights bias triples (<[weight_key f s := ln (q / (1 - q)) - bias]> w)).
  destruct i as [| i].
  - injection Hi as -> -> ->.
    rewrite assign_weights_lookup_ne; [apply lookup_insert_eq |].
    apply Forall_lookup. intros j [[f' s'] p'] Hj. cbn.
    apply (Hlater (S j) f' s' p'); [lia | done].
  - apply (IH _ i); [done |].
    intros j f' s' p' Hij Hj. apply (Hlater (S j) f' s' p'); [lia | done].
Qed.

(** An input probability out of range lets the derivation return nothing. *)
Lemma train_out_of_range_raises settings fs raw :
  raw_probs_json fs = Some raw →
  ¬ Forall in_range (input_probabilities settings raw) →
  ∃ e, outcome (train_and_save_weights settings fs) = Raise e.
Proof.
  intros Hraw Hbad. unfold train_and_save_weights, input_probabilities in *.
  rewrite Hraw. cbn.
  destruct (decide (in_range (base_fraud_rate settings))) as [Hb | Hb].
  - destruct (for_features_out_of_range
                (ln (base_fraud_rate settings / (1 - base_fraud_rate settings))) raw ∅)
      as (q & Hq & Hout & Hrun).
    { intros Hall. apply Hbad. by constructor. }
    exists (logit_exn q). rewrite (logit_in_range _ Hb). cbn. by rewrite Hrun.
  - exists (logit_exn (base_fraud_rate settings)). by rewrite (logit_out_of_range _ Hb).
Qed.

(** On finite inputs: whenever an input probability, the base rate or a
    raw per-state probability, is not strictly between 0 and 1, weight
    derivation returns no weights.  At the first such probability [q] the
    range check of [logit] only logs, the computation goes on into the
    arithmetic, and the arithmetic raises, [ZeroDivisionError] when [q]
    is 1 and [ValueError] (math domain error) otherwise. *)
Lemma train_and_save_weights_out_of_range settings fs raw :
  raw_probs_json fs = Some raw →
  ¬ Forall in_range (input_probabilities settings raw) →
  ∃ q, q ∈ input_probabilities settings raw ∧ ¬ in_range q
       ∧ train_and_save_weights settings fs
         = Logged [ProbabilityOutOfRange q] (Raise (logit_exn q)).
Proof.
  intros Hraw Hbad. unfold train_and_save_weights, input_probabilities in *.
  rewrite Hraw. cbn.
  destruct (decide (in_range (base_fraud_rate settings))) as [Hb | Hb].
  - destruct (for_features_out_of_range (ln (base_fraud_rate settings / (1 - base_fraud_rate settings))) raw ∅) as (q & Hq & Hout & Hrun).
    { intros Hall. apply Hbad. by constructor. }
    exists q. split; [by apply list_elem_of_further |]. split; [done |].
    rewrite (logit_in_range _ Hb). cbn. by rewrite Hrun.
  - exists (base_fraud_rate settings). split; [apply list_elem_of_here |].
    split; [done |]. by rewrite (logit_out_of_range _ Hb).
Qed.

Lemma one_not_in_range : ¬ in_range 1.
Proof. unfold in_range. lra. Qed.

(** With a base rate of 1 the derivation logs the range message, goes
    on, and ends with the [ZeroDivisionError] of the division. *)
Lemma train_and_save_weights_base_rate_one :
  train_and_save_weights base_rate_one (with_raw_probs [])
  = Logged [ProbabilityOutOfRange 1] (Raise ZeroDivisionError).
Proof.
  unfold train_and_save_weights. cbn.
  rewrite (logit_out_of_range 1 one_not_in_range). cbn.
  unfold logit_exn. by destruct (decide (1 = 1)).
Qed.

Lemma scenario_in_range :
  Forall in_range (input_probabilities scenario_settings scenario_raw_probs).
Proof. repeat constructor; cbn; lra. Qed.

(** C5 (corrected).  When every input probability is in range, weight
    derivation returns [bias = ln (baseRate / (1 - baseRate))] and, for
    each (feature, state) pair of the raw-probability input whose key
    ["feature:state"] is not produced again by a later pair, the weight
    [ln (p / (1 - p)) - bias] under that key.  In the scenario of the spec
    (base rate 0.02, raw probability 0.25 for Porting:Recent) the bias is
    within 0.0001 of -3.8918 and the weight within 0.0001 of 2.7932. *)
Theorem train_and_save_weights_derives :
  (∀ settings fs raw,
     raw_probs_json fs = Some raw →
     Forall in_range (input_probabilities settings raw) →
     ∃ bias weights,
       train_and_save_weights settings fs
       = Logged [WeightsWritten] (Ok (written fs bias weights, (bias, weights)))
       ∧ bias = ln (base_fraud_rate settings / (1 - base_fraud_rate settings))
       ∧ ∀ i feature state p,
           raw_triples raw !! i = Some (feature, state, p) →
           (∀ j f' s' p', (i < j)%nat → raw_triples raw !! j = Some (f', s', p') →
              weight_key f' s' ≠ weight_key feature state) →
           weights !! weight_key feature state = Some (ln (p / (1 - p)) - bias))
  ∧ (∃ bias weights w,
       outcome (train_and_save_weights scenario_settings
                  (with_raw_probs scenario_raw_probs))
       = Ok (written (with_raw_probs scenario_raw_probs) bias weights, (bias, weights))
       ∧ weights !! "Porting:Recent" = Some w
       ∧ Rabs (bias - - (38918 / 10000)) < 1 / 10000
       ∧ Rabs (w - 27932 / 10000) < 1 / 10000).
Proof.
  assert (Hgen : ∀ settings fs raw,
     raw_probs_json fs = Some raw →
     Forall in_range (input_probabilities settings raw) →
     ∃ bias weights,
       train_and_save_weights settings fs
       = Logged [WeightsWritten] (Ok (written fs bias weights, (bias, weights)))
       ∧ bias = ln (base_fraud_rate settings / (1 - base_fraud_rate settings))
       ∧ ∀ i feature state p,
           raw_triples raw !! i = Some (feature, state, p) →
           (∀ j f' s' p', (i < j)%nat → raw_triples raw !! j = Some (f', s', p') →
              weight_key f' s' ≠ weight_key feature state) →
           weights !! weight_key feature state = Some (ln (p / (1 - p)) - bias)).
  { intros settings fs raw Hraw Hall.
    eexists _, _. split; [exact (train_in_range settings fs raw Hraw Hall) |].
    split; [done |]. intros i feature state p Hi Hlater.
    by apply (assign_weights_lookup _ _ _ i). }
  split; [exact Hgen |].
  destruct (Hgen scenario_settings (with_raw_probs scenario_raw_probs)
              scenario_raw_probs eq_refl scenario_in_range)
    as (bias & weights & Hrun & Hbias & Hw).
  exists bias, weights, (ln (25 / 100 / (1 - 25 / 100)) - bias).
  split; [by rewrite Hrun |].
  split.
  { apply (Hw 0%nat "Porting" "Recent"); [done |].
    intros [| j] ? ? ? Hj; [lia |]. done. }
  cbn in Hbias.
  assert (Hb : bias = - ln 49).
  { rewrite Hbias. replace (2 / 100 / (1 - 2 / 100)) with (/ 49) by field.
    apply ln_Rinv. lra. }
  assert (Hl : ln (25 / 100 / (1 - 25 / 100)) - bias = ln (49 / 3)).
  { rewrite Hb. replace (25 / 100 / (1 - 25 / 100)) with (/ 3) by field.
    rewrite ln_Rinv by lra. unfold Rdiv. rewrite ln_mult, ln_Rinv by lra. lra. }
  rewrite Hl, Hb.
  pose proof ln_49_bounds. pose proof ln_49_3_bounds.
  split; apply Rabs_def1; lra.
Qed.

Lemma train_and_save_weights_derives_witness :
  ∃ bias weights,
    train_and_save_weights scenario_settings (with_raw_probs scenario_raw_probs)
    = Logged [WeightsWritten]
        (Ok (written (with_raw_probs scenario_raw_probs) bias weights, (bias, weights)))
    ∧ bias = ln (base_fraud_rate scenario_settings / (1 - base_fraud_rate scenario_settings))
    ∧ ∀ i feature state p,
        raw_triples scenario_raw_probs !! i = Some (feature, state, p) →
        (∀ j f' s' p', (i < j)%nat →
           raw_triples scenario_raw_probs !! j = Some (f', s', p') →
           weight_key f' s' ≠ weight_key feature state) →
        weights !! weight_key feature state = Some (ln (p / (1 - p)) - bias).
Proof.
  apply (proj1 train_and_save_weights_derives scenario_settings
           (with_raw_probs scenario_raw_probs) scenario_raw_probs).
  - reflexivity.
  - exact scenario_in_range.
Defined.

Lemma colliding_in_range :
  Forall in_range (input_probabilities base_rate_half colliding_raw_probs).
Proof. repeat constructor; cbn; lra. Qed.

(** C5, the claim as stated fails: the pairs ("A", "B:C") and
    ("A:B", "C") are both stored under the key ["A:B:C"]; the later one
    wins, and the weight under the key of the first pair is not the one
    derived from its probability. *)
Lemma colliding_keys_break_formula :
  ∃ bias weights,
    outcome (train_and_save_weights base_rate_half (with_raw_probs colliding_raw_probs))
    = Ok (written (with_raw_probs colliding_raw_probs) bias weights, (bias, weights))
    ∧ ("A", "B:C", 1 / 4) ∈ raw_triples colliding_raw_probs
    ∧ weights !! weight_key "A" "B:C" ≠ Some (ln (1 / 4 / (1 - 1 / 4)) - bias).
Proof.
  eexists _, _. split.
  { rewrite (train_in_range base_rate_half (with_raw_probs colliding_raw_probs)
               colliding_raw_probs eq_refl colliding_in_range). reflexivity. }
  split; [apply list_elem_of_here |].
  change (weight_key "A" "B:C") with (weight_key "A:B" "C").
  rewrite (assign_weights_lookup _ (raw_triples colliding_raw_probs) ∅ 1 "A:B" "C" (1 / 2)).
  - intros [= Heq].
    assert (H1 : ln (1 / 2 / (1 - 1 / 2)) = 0).
    { replace (1 / 2 / (1 - 1 / 2)) with 1 by field. apply ln_1. }
    assert (H2 : ln (1 / 4 / (1 - 1 / 4)) < ln 1).
    { apply ln_increasing; lra. }
    rewrite ln_1 in H2. lra.
  - reflexivity.
  - intros [| [| j]] ? ? ? Hj; try lia. done.
Qed.

Lemma for_append_Ok {A B} (f : A → result B) (l : list A) (ys : list B) :
  for_append f l = Ok ys ↔ Forall2 (λ x y, f x = Ok y) l ys.
Proof.
  revert ys. induction l as [| x l IH]; intros ys; cbn.
  - split; [intros [= <-]; constructor | intros ->%Forall2_nil_inv_l; done].
  - destruct (f x) as [y | e] eqn:Hx; cbn.
    + destruct (for_append f l) as [ys' | e] eqn:Hl; cbn.
      * split.
        -- intros [= <-]. constructor; [done | by apply IH].
        -- intros (y' & ys'' & Hy & Hys & ->)%Forall2_cons_inv_l.
           apply IH in Hys. congruence.
      * split; [done |].
        intros (y' & ys'' & Hy & Hys & ->)%Forall2_cons_inv_l.
        apply IH in Hys. done.
    + split; [done |].
      intros (y' & ys'' & Hy & Hys & ->)%Forall2_cons_inv_l. congruence.
Qed.

Lemma for_append_Raise {A B} (f : A → result B) (l : list A) (e : exn) :
  for_append f l = Raise e → ∃ x, x ∈ l ∧ f x = Raise e.
Proof.
  induction l as [| x l IH]; cbn; [done |].
  destruct (f x) as [y | e'] eqn:Hx; cbn.
  - destruct (for_append f l) as [ys | e'']; cbn; [done |].
    intros [= ->]. destruct IH as (x' & Hin & Hx'); [done |].
    exists x'. split; [by apply list_elem_of_further | done].
  - intros [= ->]. exists x. split; [apply list_elem_of_here | done].
Qed.

Lemma for_append_raises {A B} (f : A → result B) (l : list A) :
  Exists (λ x, raises (f x)) l → raises (for_append f l).
Proof.
  induction 1 as [x l Hx | x l _ IH]; cbn.
  - destruct (f x); [done | exact I].
  - destruct (f x); cbn; [| exact I].
    destruct (for_append f l); [done | exact I].
Qed.

Lemma bind_length_uniform {A B} (f : A → list B) (l : list A) (n : nat) :
  (∀ y, y ∈ l → length (f y) = n) → length (l ≫= f) = (length l * n)%nat.
Proof.
  induction l as [| x l IH]; intros Hn; [done |].
  cbn. rewrite length_app, IH, Hn.
  - lia.
  - apply list_elem_of_here.
  - intros y Hy. apply Hn. by apply list_elem_of_further.
Qed.

Lemma bind_lookup_uniform {A B} (f : A → list B) (l : list A) (n i j : nat) (x : A) :
  (∀ y, y ∈ l → length (f y) = n) → l !! i = Some x → (j < n)%nat →
  (l ≫= f) !! (i * n + j)%nat = f x !! j.
Proof.
  revert i. induction l as [| a l IH]; intros i Hn Hi Hj; [done |].
  cbn. destruct i as [| i].
  - injection Hi as ->. cbn. apply lookup_app_l.
    rewrite Hn; [lia | apply list_elem_of_here].
  - cbn in Hi. rewrite lookup_app_r; rewrite Hn by apply list_elem_of_here; [| lia].
    replace (S i * n + j - n)%nat with (i * n + j)%nat by lia.
    apply IH; [| done | done]. intros y Hy. apply Hn. by apply list_elem_of_further.
Qed.

Lemma product5_length {A B C D E} (la : list A) (lb : list B) (lc : list C)
    (ld : list D) (le : list E) :
  length (product5 la lb lc ld le)
  = (length la * length lb * length lc * length ld * length le)%nat.
Proof.
  unfold product5.
  rewrite (bind_length_uniform _ la (length lb * length lc * length ld * length le)); [lia |].
  intros a _.
  rewrite (bind_length_uniform _ lb (length lc * length ld * length le)); [lia |].
  intros b _.
  rewrite (bind_length_uniform _ lc (length ld * length le)); [lia |].
  intros c _.
  rewrite (bind_length_uniform _ ld (length le)); [lia |].
  intros d _.
  rewrite (bind_length_uniform _ le 1); [lia | done].
Qed.

Lemma index_lt_mul (i a j b : nat) : (i < a → j < b → i * b + j < a * b)%nat.
Proof. nia. Qed.

Lemma product5_lookup {A B C D E} (la : list A) (lb : list B) (lc : list C)
    (ld : list D) (le : list E) i1 i2 i3 i4 i5 a b c d e :
  la !! i1 = Some a → lb !! i2 = Some b → lc !! i3 = Some c →
  ld !! i4 = Some d → le !! i5 = Some e →
  product5 la lb lc ld le
    !! column_index (length lb) (length lc) (length ld) (length le) i1 i2 i3 i4 i5
  = Some (a, b, c, d, e).
Proof.
  intros Ha Hb Hc Hd He.
  pose proof (lookup_lt_Some _ _ _ Hb) as Hb'.
  pose proof (lookup_lt_Some _ _ _ Hc) as Hc'.
  pose proof (lookup_lt_Some _ _ _ Hd) as Hd'.
  pose proof (lookup_lt_Some _ _ _ He) as He'.
  set (nb := length lb) in *. set (nc := length lc) in *.
  set (nd := length ld) in *. set (ne := length le) in *.
  pose proof (index_lt_mul i4 nd i5 ne Hd' He') as H4.
  pose proof (index_lt_mul i3 nc _ _ Hc' H4) as H3.
  pose proof (index_lt_mul i2 nb _ _ Hb' H3) as H2.
  unfold product5, column_index.
  replace ((((i1 * nb + i2) * nc + i3) * nd + i4) * ne + i5)%nat
    with (i1 * (nb * (nc * (nd * ne))) + (i2 * (nc * (nd * ne)) + (i3 * (nd * ne) + (i4 * ne + i5))))%nat
    by ring.
  rewrite (bind_lookup_uniform _ la _ i1 _ a); [| | done | done].
  2:{ intros a' _. rewrite (bind_length_uniform _ lb (nc * (nd * ne))); [done |].
      intros b' _. rewrite (bind_length_uniform _ lc (nd * ne)); [done |].
      intros c' _. rewrite (bind_length_uniform _ ld ne); [done |].
      intros d' _. rewrite (bind_length_uniform _ le 1); [lia | done]. }
  rewrite (bind_lookup_uniform _ lb _ i2 _ b); [| | done | done].
  2:{ intros b' _. rewrite (bind_length_uniform _ lc (nd * ne)); [done |].
      intros c' _. rewrite (bind_length_uniform _ ld ne); [done |].
      intros d' _. rewrite (bind_length_uniform _ le 1); [lia | done]. }
  rewrite (bind_lookup_uniform _ lc _ i3 _ c); [| | done | done].
  2:{ intros c' _. rewrite (bind_length_uniform _ ld ne); [done |].
      intros d' _. rewrite (bind_length_uniform _ le 1); [lia | done]. }
  rewrite (bind_lookup_uniform _ ld _ i4 _ d); [| | done | done].
  2:{ intros d' _. rewrite (bind_length_uniform _ le 1); [lia | done]. }
  replace i5 with (i5 * 1 + 0)%nat by lia.
  rewrite (bind_lookup_uniform _ le 1 i5 0 e); [done | done | done | lia].
Qed.

Lemma elem_of_product5 {A B C D E} (la : list A) (lb : list B) (lc : list C)
    (ld : list D) (le : list E) a b c d e :
  (a, b, c, d, e) ∈ product5 la lb lc ld le
  ↔ a ∈ la ∧ b ∈ lb ∧ c ∈ lc ∧ d ∈ ld ∧ e ∈ le.
Proof.
  unfold product5. split.
  - intros (a' & (b' & (c' & (d' & (e' & Hin & He)%list_elem_of_bind & Hd)
      %list_elem_of_bind & Hc)%list_elem_of_bind & Hb)%list_elem_of_bind & Ha)
      %list_elem_of_bind.
    apply list_elem_of_singleton in Hin. injection Hin as -> -> -> -> ->. done.
  - intros (Ha & Hb & Hc & Hd & He).
    apply list_elem_of_bind. exists a. split; [| done].
    apply list_elem_of_bind. exists b. split; [| done].
    apply list_elem_of_bind. exists c. split; [| done].
    apply list_elem_of_bind. exists d. split; [| done].
    apply list_elem_of_bind. exists e. split; [| done].
    apply list_elem_of_here.
Qed.

Lemma subscript_Ok {V} (d : gmap string V) (k : string) (v : V) :
  subscript d k = Ok v ↔ d !! k = Some v.
Proof. unfold subscript. destruct (d !! k); split; congruence. Qed.

Lemma subscript_Raise {V} (d : gmap string V) (k : string) (e : exn) :
  subscript d k = Raise e ↔ d !! k = None ∧ e = KeyError k.
Proof.
  unfold subscript. destruct (d !! k); split; try done.
  - intros [? _]; done.
  - intros [= <-]. done.
  - intros [_ ->]. done.
Qed.

Lemma fraud_probability_Ok_inv bias WEIGHTS p d s x m q :
  fraud_probability bias WEIGHTS (p, d, s, x, m) = Ok q →
  ∃ w_p w_d w_s w_x w_m,
    WEIGHTS !! ("Porting:" +:+ p) = Some w_p
    ∧ WEIGHTS !! ("DarkWeb:" +:+ d) = Some w_d
    ∧ WEIGHTS !! ("StateMatch:" +:+ s) = Some w_s
    ∧ WEIGHTS !! ("ProxyFlag:" +:+ x) = Some w_x
    ∧ WEIGHTS !! ("MAID_NightDistance:" +:+ m) = Some w_m
    ∧ sigmoid (bias + w_p + w_d + w_s + w_x + w_m) = Ok q.
Proof.
  unfold fraud_probability, subscript.
  destruct (WEIGHTS !! ("Porting:" +:+ p)) as [w_p |]; [| done].
  destruct (WEIGHTS !! ("DarkWeb:" +:+ d)) as [w_d |]; [| done].
  destruct (WEIGHTS !! ("StateMatch:" +:+ s)) as [w_s |]; [| done].
  destruct (WEIGHTS !! ("ProxyFlag:" +:+ x)) as [w_x |]; [| done].
  destruct (WEIGHTS !! ("MAID_NightDistance:" +:+ m)) as [w_m |]; [| done].
  cbn. intros Hs. by exists w_p, w_d, w_s, w_x, w_m.
Qed.

Lemma fraud_probability_present bias WEIGHTS p d s x m w_p w_d w_s w_x w_m :
  WEIGHTS !! ("Porting:" +:+ p) = Some w_p →
  WEIGHTS !! ("DarkWeb:" +:+ d) = Some w_d →
  WEIGHTS !! ("StateMatch:" +:+ s) = Some w_s →
  WEIGHTS !! ("ProxyFlag:" +:+ x) = Some w_x →
  WEIGHTS !! ("MAID_NightDistance:" +:+ m) = Some w_m →
  fraud_probability bias WEIGHTS (p, d, s, x, m)
  = sigmoid (bias + w_p + w_d + w_s + w_x + w_m).
Proof.
  intros Hp Hd Hs Hx Hm. unfold fraud_probability, subscript.
  by rewrite Hp, Hd, Hs, Hx, Hm.
Qed.

(** A tuple with an absent key raises [KeyError] for its first absent
    key: the lookups come before the sigmoid. *)
Lemma fraud_probability_absent bias WEIGHTS tuple :
  Exists (λ k, WEIGHTS !! k = None) (tuple_keys tuple) →
  ∃ k, k ∈ tuple_keys tuple ∧ WEIGHTS !! k = None
       ∧ fraud_probability bias WEIGHTS tuple = Raise (KeyError k).
Proof.
  destruct tuple as [[[[p d] s] x] m]. unfold tuple_keys, fraud_probability, subscript.
  intros Hex.
  destruct (WEIGHTS !! ("Porting:" +:+ p)) as [w_p |] eqn:Hp.
  2:{ eexists. split; [apply list_elem_of_here | done]. }
  apply Exists_cons in Hex as [Hex | Hex]; [congruence |].
  destruct (WEIGHTS !! ("DarkWeb:" +:+ d)) as [w_d |] eqn:Hd.
  2:{ eexists. split; [do 1 apply list_elem_of_further; apply list_elem_of_here | done]. }
  apply Exists_cons in Hex as [Hex | Hex]; [congruence |].
  destruct (WEIGHTS !! ("StateMatch:" +:+ s)) as [w_s |] eqn:Hs.
  2:{ eexists. split; [do 2 apply list_elem_of_further; apply list_elem_of_here | done]. }
  apply Exists_cons in Hex as [Hex | Hex]; [congruence |].
  destruct (WEIGHTS !! ("ProxyFlag:" +:+ x)) as [w_x |] eqn:Hx.
  2:{ eexists. split; [do 3 apply list_elem_of_further; apply list_elem_of_here | done]. }
  apply Exists_cons in Hex as [Hex | Hex]; [congruence |].
  destruct (WEIGHTS !! ("MAID_NightDistance:" +:+ m)) as [w_m |] eqn:Hm.
  2:{ eexists. split; [do 4 apply list_elem_of_further; apply list_elem_of_here | done]. }
  apply Exists_cons in Hex as [Hex | Hex]; [congruence |].
  by apply Exists_nil in Hex.
Qed.

Lemma build_fraud_cpd_Ok_inv fs bias WEIGHTS cpd :
  build_fraud_cpd fs bias WEIGHTS = Ok cpd →
  ∃ ps ds ss xs ms p_fraud_yes,
    parent_states fs "Porting" = Ok ps
    ∧ parent_states fs "DarkWeb" = Ok ds
    ∧ parent_states fs "StateMatch" = Ok ss
    ∧ parent_states fs "ProxyFlag" = Ok xs
    ∧ parent_states fs "MAID_NightDistance" = Ok ms
    ∧ for_append (fraud_probability bias WEIGHTS) (product5 ps ds ss xs ms)
      = Ok p_fraud_yes
    ∧ (length ps * length ds * length ss * length xs * length ms = 192)%nat
    ∧ cpd = fraud_cpd_of ps ds ss xs ms p_fraud_yes.
Proof.
  unfold build_fraud_cpd, parent_states.
  destruct (load_priors fs) as [priors |]; [cbn | done].
  destruct (json_get priors "Porting") as [porting |]; [cbn | done].
  destruct (json_get priors "DarkWeb") as [darkweb |]; [cbn | done].
  destruct (json_get priors "StateMatch") as [statematch |]; [cbn | done].
  destruct (json_get priors "ProxyFlag") as [proxy |]; [cbn | done].
  destruct (json_get priors "MAID_NightDistance") as [maid |]; [cbn | done].
  destruct (for_append _ _) as [p_fraud_yes |] eqn:Hloop; [cbn | done].
  unfold new_TabularCPD. case_decide as Hshape; [| done].
  intros [= <-].
  exists (states porting), (states darkweb), (states statematch), (states proxy),
    (states maid), p_fraud_yes.
  repeat (split; [done |]). split; [| done].
  destruct Hshape as (_ & _ & Hrows & _).
  apply Forall_cons in Hrows as [Hrow _].
  apply for_append_Ok, Forall2_length in Hloop.
  rewrite product5_length in Hloop. rewrite Hloop, Hrow. reflexivity.
Qed.

(** C1 (confirmed).  When [build_fraud_cpd] returns a CPT, its table has
    two rows over the cartesian product of the declared parent states,
    taken in the order of [itertools.product] (Porting slowest,
    MAID_NightDistance fastest): in the column of a combination the first
    row holds [sigmoid (bias + the five weights of its states)] and the
    second row one minus that value. *)
Theorem build_fraud_cpd_rows fs bias WEIGHTS cpd :
  build_fraud_cpd fs bias WEIGHTS = Ok cpd →
  ∃ ps ds ss xs ms p_fraud_yes p_fraud_no,
    parent_states fs "Porting" = Ok ps
    ∧ parent_states fs "DarkWeb" = Ok ds
    ∧ parent_states fs "StateMatch" = Ok ss
    ∧ parent_states fs "ProxyFlag" = Ok xs
    ∧ parent_states fs "MAID_NightDistance" = Ok ms
    ∧ cpd_values cpd = [p_fraud_yes; p_fraud_no]
    ∧ length p_fraud_yes = length (product5 ps ds ss xs ms)
    ∧ length p_fraud_no = length (product5 ps ds ss xs ms)
    ∧ ∀ i1 i2 i3 i4 i5 p d s x m,
        ps !! i1 = Some p → ds !! i2 = Some d → ss !! i3 = Some s →
        xs !! i4 = Some x → ms !! i5 = Some m →
        let j := column_index (length ds) (length ss) (length xs) (length ms)
                   i1 i2 i3 i4 i5 in
        ∃ w_p w_d w_s w_x w_m p_positive,
          product5 ps ds ss xs ms !! j = Some (p, d, s, x, m)
          ∧ WEIGHTS !! ("Porting:" +:+ p) = Some w_p
          ∧ WEIGHTS !! ("DarkWeb:" +:+ d) = Some w_d
          ∧ WEIGHTS !! ("StateMatch:" +:+ s) = Some w_s
          ∧ WEIGHTS !! ("ProxyFlag:" +:+ x) = Some w_x
          ∧ WEIGHTS !! ("MAID_NightDistance:" +:+ m) = Some w_m
          ∧ sigmoid (bias + w_p + w_d + w_s + w_x + w_m) = Ok p_positive
          ∧ p_positive = 1 / (1 + exp (- (bias + w_p + w_d + w_s + w_x + w_m)))
          ∧ p_fraud_yes !! j = Some p_positive
          ∧ p_fraud_no !! j = Some (1 - p_positive)
          ∧ Rabs (p_positive + (1 - p_positive) - 1) <= 1 / 10 ^ 9.
Proof.
  intros (ps & ds & ss & xs & ms & p_fraud_yes & Hps & Hds & Hss & Hxs & Hms
          & Hloop & _ & ->)%build_fraud_cpd_Ok_inv.
  exists ps, ds, ss, xs, ms, p_fraud_yes, (map (λ prob, 1 - prob) p_fraud_yes).
  apply for_append_Ok in Hloop.
  pose proof (Forall2_length _ _ _ Hloop) as Hlen.
  split_and!; [done | done | done | done | done | done | done
                | by rewrite length_map |].
  intros i1 i2 i3 i4 i5 p d s x m H1 H2 H3 H4 H5 j.
  pose proof (product5_lookup ps ds ss xs ms _ _ _ _ _ _ _ _ _ _ H1 H2 H3 H4 H5)
    as Htuple. fold j in Htuple.
  destruct (Forall2_lookup_l _ _ _ _ _ Hloop Htuple) as (q & Hq & Hprob).
  destruct (fraud_probability_Ok_inv _ _ _ _ _ _ _ _ Hprob)
    as (w_p & w_d & w_s & w_x & w_m & Hp & Hd & Hs & Hx & Hm & Hsig).
  exists w_p, w_d, w_s, w_x, w_m, q.
  split_and!; [done | done | done | done | done | done | done
                | by apply sigmoid_Ok_inv in Hsig as [-> _] | done
                | by rewrite list_lookup_fmap, Hq |].
  replace (q + (1 - q) - 1) with 0 by lra. rewrite Rabs_R0.
  apply Rlt_le, Rdiv_lt_0_compat; [lra | apply pow_lt; lra].
Qed.

Lemma parent_states_Ok_inv fs node sts :
  parent_states fs node = Ok sts →
  ∃ priors spec, load_priors fs = Ok priors ∧ json_get priors node = Ok spec
                 ∧ states spec = sts.
Proof.
  unfold parent_states. destruct (load_priors fs) as [priors |]; [cbn | done].
  destruct (json_get priors node) as [spec |] eqn:Hget; [cbn | done].
  intros [= <-]. by exists priors, spec.
Qed.

Lemma for_append_total {A B} (f : A → result B) (l : list A) :
  Forall (λ x, ∃ y, f x = Ok y) l → ∃ ys, for_append f l = Ok ys.
Proof.
  induction 1 as [| x l [y Hy] _ [ys Hys]]; [by exists [] |].
  exists (y :: ys). cbn. by rewrite Hy, Hys.
Qed.

Lemma fraud_probability_returns bias WEIGHTS lo ps ds ss xs ms tuple :
  weights_cover WEIGHTS lo "Porting" ps →
  weights_cover WEIGHTS lo "DarkWeb" ds →
  weights_cover WEIGHTS lo "StateMatch" ss →
  weights_cover WEIGHTS lo "ProxyFlag" xs →
  weights_cover WEIGHTS lo "MAID_NightDistance" ms →
  -709 <= bias + 5 * lo →
  tuple ∈ product5 ps ds ss xs ms →
  ∃ q, fraud_probability bias WEIGHTS tuple = Ok q.
Proof.
  intros Hp Hd Hs Hx Hm Hlo. destruct tuple as [[[[p d] s] x] m].
  intros (Hip & Hid & His & Hix & Him)%elem_of_product5.
  unfold weights_cover in *. rewrite Forall_forall in Hp, Hd, Hs, Hx, Hm.
  destruct (Hp _ Hip) as (w_p & Hwp & ?). destruct (Hd _ Hid) as (w_d & Hwd & ?).
  destruct (Hs _ His) as (w_s & Hws & ?). destruct (Hx _ Hix) as (w_x & Hwx & ?).
  destruct (Hm _ Him) as (w_m & Hwm & ?).
  rewrite (fraud_probability_present _ _ _ _ _ _ _ _ _ _ _ _ Hwp Hwd Hws Hwx Hwm).
  eexists. apply sigmoid_returns. lra.
Qed.

Lemma build_fraud_cpd_returns fs bias WEIGHTS lo ps ds ss xs ms :
  parent_states fs "Porting" = Ok ps →
  parent_states fs "DarkWeb" = Ok ds →
  parent_states fs "StateMatch" = Ok ss →
  parent_states fs "ProxyFlag" = Ok xs →
  parent_states fs "MAID_NightDistance" = Ok ms →
  weights_cover WEIGHTS lo "Porting" ps →
  weights_cover WEIGHTS lo "DarkWeb" ds →
  weights_cover WEIGHTS lo "StateMatch" ss →
  weights_cover WEIGHTS lo "ProxyFlag" xs →
  weights_cover WEIGHTS lo "MAID_NightDistance" ms →
  -709 <= bias + 5 * lo →
  (length ps * length ds * length ss * length xs * length ms = 192)%nat →
  NoDup ps → NoDup ds → NoDup ss → NoDup xs → NoDup ms →
  ∃ p_fraud_yes,
    build_fraud_cpd fs bias WEIGHTS = Ok (fraud_cpd_of ps ds ss xs ms p_fraud_yes).
Proof.
  intros (priors & porting & Hload & Hg1 & <-)%parent_states_Ok_inv
         (? & darkweb & Hload2 & Hg2 & <-)%parent_states_Ok_inv
         (? & statematch & Hload3 & Hg3 & <-)%parent_states_Ok_inv
         (? & proxy & Hload4 & Hg4 & <-)%parent_states_Ok_inv
         (? & maid & Hload5 & Hg5 & <-)%parent_states_Ok_inv.
  rewrite Hload in Hload2, Hload3, Hload4, Hload5.
  injection Hload2 as <-. injection Hload3 as <-.
  injection Hload4 as <-. injection Hload5 as <-.
  intros Hp Hd Hs Hx Hm Hlo Hcount N1 N2 N3 N4 N5.
  destruct (for_append_total (fraud_probability bias WEIGHTS)
              (product5 (states porting) (states darkweb) (states statematch)
                 (states proxy) (states maid))) as [p_fraud_yes Hloop].
  { apply Forall_forall. intros tuple Htuple.
    by apply (fraud_probability_returns bias WEIGHTS lo (states porting)
                (states darkweb) (states statematch) (states proxy) (states maid)). }
  exists p_fraud_yes. unfold build_fraud_cpd.
  rewrite Hload. cbn. rewrite Hg1. cbn. rewrite Hg2. cbn. rewrite Hg3. cbn.
  rewrite Hg4. cbn. rewrite Hg5. cbn. rewrite Hloop. cbn.
  unfold new_TabularCPD. case_decide as Hshape; [done |].
  exfalso. apply Hshape.
  pose proof Hloop as Hlen. apply for_append_Ok, Forall2_length in Hlen.
  rewrite product5_length, Hcount in Hlen.
  split_and!; [done | done | | ].
  - repeat constructor; [done | by rewrite length_map].
  - assert (NoDup ["Fraud"; "Legit"])
      by (refine (bool_decide_unpack _ _); vm_compute; exact I).
    repeat (constructor; [done |]). constructor.
Qed.

Lemma ln_le_minus_1 (x : R) : 0 < x → ln x <= x - 1.
Proof.
  intros Hx. pose proof (exp_ge_1_plus (ln x)) as H. rewrite exp_ln in H by done. lra.
Qed.

Lemma ln_ge_1_minus_inv (x : R) : 0 < x → 1 - / x <= ln x.
Proof.
  intros Hx. pose proof (ln_le_minus_1 (/ x) (Rinv_0_lt_compat _ Hx)) as H.
  rewrite ln_Rinv in H by done. lra.
Qed.

Lemma ln_le_mono (x y : R) : 0 < x → x <= y → ln x <= ln y.
Proof.
  intros Hx [Hlt | ->]; [left; by apply ln_increasing | right; done].
Qed.

(** The log-odds of a probability of at least 1/100. *)
Lemma ln_odds_lower (p : R) : 1 / 100 <= p → p < 1 → -98 <= ln (p / (1 - p)).
Proof.
  intros Hlo Hhi.
  assert (H99 : / 99 <= p / (1 - p)).
  { apply (Rmult_le_reg_r (1 - p)); [lra |].
    unfold Rdiv. rewrite Rmult_assoc, Rinv_l by lra. lra. }
  apply Rle_trans with (ln (/ 99)).
  - pose proof (ln_ge_1_minus_inv (/ 99)) as H. rewrite Rinv_inv in H. lra.
  - apply ln_le_mono; [lra | done].
Qed.

Lemma assign_weights_lookup_NoDup bias triples feature state p :
  NoDup (map (λ t, weight_key t.1.1 t.1.2) triples) →
  (feature, state, p) ∈ triples →
  assign_weights bias triples ∅ !! weight_key feature state
  = Some (ln (p / (1 - p)) - bias).
Proof.
  intros Hnd (i & Hi)%list_elem_of_lookup.
  apply (assign_weights_lookup _ _ _ i); [done |].
  intros j f' s' p' Hij Hj Heq.
  assert (i = j); [| lia].
  apply (NoDup_lookup _ i j (weight_key feature state) Hnd).
  - by rewrite list_lookup_fmap, Hi.
  - by rewrite list_lookup_fmap, Hj, <- Heq.
Qed.

Lemma example_keys_NoDup :
  NoDup (map (λ t, weight_key t.1.1 t.1.2) (raw_triples example_raw_probs)).
Proof. refine (bool_decide_unpack _ _). vm_compute. exact I. Qed.

Lemma elem_of_raw_triples raw feature state p :
  (feature, state, p) ∈ raw_triples raw
  ↔ ∃ sts, (feature, sts) ∈ raw ∧ (state, p) ∈ sts.
Proof.
  unfold raw_triples. rewrite list_elem_of_bind. split.
  - intros ([f sts] & Hin & Hf). apply list_elem_of_bind in Hin as ([s q] & Hin & Hsp).
    apply list_elem_of_singleton in Hin. injection Hin as -> -> ->. by exists sts.
  - intros (sts & Hf & Hsp). exists (feature, sts). split; [| done].
    apply list_elem_of_bind. exists (state, p). split; [apply list_elem_of_here | done].
Qed.

(** Weights derived from raw probabilities cover a feature's states. *)
Lemma derived_weights_cover raw bias feature sts lo :
  NoDup (map (λ t, weight_key t.1.1 t.1.2) (raw_triples raw)) →
  (feature, sts) ∈ raw →
  Forall (λ sp, lo + bias <= ln (sp.2 / (1 - sp.2))) sts →
  weights_cover (assign_weights bias (raw_triples raw) ∅) lo feature sts.*1.
Proof.
  intros Hnd Hf Hall. unfold weights_cover. apply Forall_fmap, Forall_forall.
  intros [state p] Hsp. rewrite Forall_forall in Hall. specialize (Hall _ Hsp).
  cbn in *. exists (ln (p / (1 - p)) - bias). split; [| lra].
  apply assign_weights_lookup_NoDup; [done |].
  apply elem_of_raw_triples. by exists sts.
Qed.

Lemma example_bias_bounds : -48 <= example_bias <= 0.
Proof.
  unfold example_bias. replace (2 / 100 / (1 - 2 / 100)) with (/ 49) by field.
  split.
  - pose proof (ln_ge_1_minus_inv (/ 49)) as H. rewrite Rinv_inv in H. lra.
  - pose proof (ln_le_minus_1 (/ 49)) as H. lra.
Qed.

Lemma example_weights_cover feature sts :
  (feature, sts) ∈ example_raw_probs →
  weights_cover example_weights (-98) feature sts.*1.
Proof.
  intros Hin. apply derived_weights_cover; [apply example_keys_NoDup | done |].
  pose proof example_bias_bounds as Hb.
  assert (Hall : Forall (λ fs, Forall (λ sp : string * R, 1 / 100 <= sp.2 ∧ sp.2 < 1) fs.2)
                   example_raw_probs).
  { unfold example_raw_probs.
    repeat first [apply Forall_nil_2 | apply Forall_cons_2]; cbn; lra. }
  rewrite Forall_forall in Hall. specialize (Hall _ Hin). cbn in Hall.
  eapply Forall_impl; [exact Hall |]. intros [state p] [Hlo Hhi]. cbn in *.
  pose proof (ln_odds_lower p Hlo Hhi). lra.
Qed.

Lemma example_fraud_cpd :
  ∃ p_fraud_yes,
    build_fraud_cpd example_files example_bias example_weights
    = Ok (fraud_cpd_of ["Old"; "Moderate"; "Recent"] ["None"; "Low"; "Medium"; "High"]
            ["Yes"; "No"] ["No"; "Yes"] ["Near"; "Moderate"; "Far"; "Distant"]
            p_fraud_yes).
Proof.
  pose proof example_bias_bounds as Hb.
  assert (Hcover : ∀ i feature sts, example_raw_probs !! i = Some (feature, sts) →
            weights_cover example_weights (-98) feature sts.*1).
  { intros i feature sts Hi. apply example_weights_cover.
    apply list_elem_of_lookup. by exists i. }
  apply (build_fraud_cpd_returns _ _ _ (-98)); try reflexivity.
  - exact (Hcover 0%nat _ _ eq_refl).
  - exact (Hcover 1%nat _ _ eq_refl).
  - exact (Hcover 2%nat _ _ eq_refl).
  - exact (Hcover 3%nat _ _ eq_refl).
  - exact (Hcover 4%nat _ _ eq_refl).
  - lra.
  - refine (bool_decide_unpack _ _); vm_compute; exact I.
  - refine (bool_decide_unpack _ _); vm_compute; exact I.
  - refine (bool_decide_unpack _ _); vm_compute; exact I.
  - refine (bool_decide_unpack _ _); vm_compute; exact I.
  - refine (bool_decide_unpack _ _); vm_compute; exact I.
Qed.

Lemma build_fraud_cpd_rows_witness :
  ∃ cpd, build_fraud_cpd example_files example_bias example_weights = Ok cpd
  ∧ ∃ ps ds ss xs ms p_fraud_yes p_fraud_no,
    parent_states example_files "Porting" = Ok ps
    ∧ parent_states example_files "DarkWeb" = Ok ds
    ∧ parent_states example_files "StateMatch" = Ok ss
    ∧ parent_states example_files "ProxyFlag" = Ok xs
    ∧ parent_states example_files "MAID_NightDistance" = Ok ms
    ∧ cpd_values cpd = [p_fraud_yes; p_fraud_no]
    ∧ length p_fraud_yes = length (product5 ps ds ss xs ms)
    ∧ length p_fraud_no = length (product5 ps ds ss xs ms)
    ∧ ∀ i1 i2 i3 i4 i5 p d s x m,
        ps !! i1 = Some p → ds !! i2 = Some d → ss !! i3 = Some s →
        xs !! i4 = Some x → ms !! i5 = Some m →
        let j := column_index (length ds) (length ss) (length xs) (length ms)
                   i1 i2 i3 i4 i5 in
        ∃ w_p w_d w_s w_x w_m p_positive,
          product5 ps ds ss xs ms !! j = Some (p, d, s, x, m)
          ∧ example_weights !! ("Porting:" +:+ p) = Some w_p
          ∧ example_weights !! ("DarkWeb:" +:+ d) = Some w_d
          ∧ example_weights !! ("StateMatch:" +:+ s) = Some w_s
          ∧ example_weights !! ("ProxyFlag:" +:+ x) = Some w_x
          ∧ example_weights !! ("MAID_NightDistance:" +:+ m) = Some w_m
          ∧ sigmoid (example_bias + w_p + w_d + w_s + w_x + w_m) = Ok p_positive
          ∧ p_positive = 1 / (1 + exp (- (example_bias + w_p + w_d + w_s + w_x + w_m)))
          ∧ p_fraud_yes !! j = Some p_positive
          ∧ p_fraud_no !! j = Some (1 - p_positive)
          ∧ Rabs (p_positive + (1 - p_positive) - 1) <= 1 / 10 ^ 9.
Proof.
  destruct example_fraud_cpd as [p_fraud_yes Hbuild].
  eexists. split; [exact Hbuild |].
  exact (build_fraud_cpd_rows example_files example_bias example_weights _ Hbuild).
Defined.

Lemma sigmoid_Raise_inv (x : R) (e : exn) : sigmoid x = Raise e → e = OverflowError.
Proof.
  destruct (decide (exp (- x) <= DBL_MAX)) as [Hle | Hgt].
  - by rewrite (sigmoid_finite x Hle).
  - rewrite sigmoid_overflow by lra. by intros [= <-].
Qed.

Lemma fraud_probability_Raise_inv bias WEIGHTS tuple e :
  fraud_probability bias WEIGHTS tuple = Raise e →
  (∃ k, k ∈ tuple_keys tuple ∧ WEIGHTS !! k = None ∧ e = KeyError k)
  ∨ e = OverflowError.
Proof.
  intros Hraise.
  destruct (decide (Exists (λ k, WEIGHTS !! k = None) (tuple_keys tuple))) as [Hex | Hall].
  - destruct (fraud_probability_absent bias WEIGHTS tuple Hex) as (k & Hk & Hnone & Hrun).
    left. exists k. rewrite Hrun in Hraise. by injection Hraise as <-.
  - right. apply not_Exists_Forall in Hall; [| intros k; apply _].
    destruct tuple as [[[[p d] s] x] m]. unfold tuple_keys in Hall.
    repeat (apply Forall_cons in Hall as [? Hall]).
    destruct (WEIGHTS !! ("Porting:" +:+ p)) as [w_p |] eqn:Hp; [| done].
    destruct (WEIGHTS !! ("DarkWeb:" +:+ d)) as [w_d |] eqn:Hd; [| done].
    destruct (WEIGHTS !! ("StateMatch:" +:+ s)) as [w_s |] eqn:Hs; [| done].
    destruct (WEIGHTS !! ("ProxyFlag:" +:+ x)) as [w_x |] eqn:Hx; [| done].
    destruct (WEIGHTS !! ("MAID_NightDistance:" +:+ m)) as [w_m |] eqn:Hm; [| done].
    rewrite (fraud_probability_present _ _ _ _ _ _ _ _ _ _ _ _ Hp Hd Hs Hx Hm) in Hraise.
    by apply sigmoid_Raise_inv in Hraise.
Qed.

Lemma for_append_first_raise {A B} (f : A → result B) (l : list A) :
  Exists (λ x, raises (f x)) l →
  ∃ x e, x ∈ l ∧ f x = Raise e ∧ for_append f l = Raise e.
Proof.
  induction l as [| x l IH]; intros Hex; [by apply Exists_nil in Hex |].
  cbn. destruct (f x) as [y | e] eqn:Hx; cbn.
  - apply Exists_cons in Hex as [Hex | Hex]; [by rewrite Hx in Hex |].
    destruct (IH Hex) as (x' & e & Hin & Hx' & Hrun).
    exists x', e. split; [by apply list_elem_of_further |]. split; [done |].
    by rewrite Hrun.
  - exists x, e. split; [apply list_elem_of_here | done].
Qed.

Lemma build_fraud_cpd_unfold fs bias WEIGHTS ps ds ss xs ms :
  parent_states fs "Porting" = Ok ps →
  parent_states fs "DarkWeb" = Ok ds →
  parent_states fs "StateMatch" = Ok ss →
  parent_states fs "ProxyFlag" = Ok xs →
  parent_states fs "MAID_NightDistance" = Ok ms →
  build_fraud_cpd fs bias WEIGHTS
  = (p_fraud_yes ← for_append (fraud_probability bias WEIGHTS)
                     (product5 ps ds ss xs ms);
     new_TabularCPD "Fraud" 2 [p_fraud_yes; map (λ prob, 1 - prob) p_fraud_yes]
       ["Porting"; "DarkWeb"; "StateMatch"; "ProxyFlag"; "MAID_NightDistance"]
       [3; 4; 2; 2; 4]%nat
       [("Fraud", ["Fraud"; "Legit"]); ("Porting", ps); ("DarkWeb", ds);
        ("StateMatch", ss); ("ProxyFlag", xs); ("MAID_NightDistance", ms)]).
Proof.
  intros (priors & porting & Hload & Hg1 & <-)%parent_states_Ok_inv
         (? & darkweb & Hload2 & Hg2 & <-)%parent_states_Ok_inv
         (? & statematch & Hload3 & Hg3 & <-)%parent_states_Ok_inv
         (? & proxy & Hload4 & Hg4 & <-)%parent_states_Ok_inv
         (? & maid & Hload5 & Hg5 & <-)%parent_states_Ok_inv.
  rewrite Hload in Hload2, Hload3, Hload4, Hload5.
  injection Hload2 as <-. injection Hload3 as <-.
  injection Hload4 as <-. injection Hload5 as <-.
  unfold build_fraud_cpd.
  rewrite Hload. cbn. rewrite Hg1. cbn. rewrite Hg2. cbn. rewrite Hg3. cbn.
  rewrite Hg4. cbn. rewrite Hg5. reflexivity.
Qed.




(** ** Sums over lists *)

Lemma sum_list_nil : sum_list [] = 0.
Proof. reflexivity. Qed.

Lemma sum_list_cons (x : R) (l : list R) : sum_list (x :: l) = x + sum_list l.
Proof. reflexivity. Qed.

Lemma sum_list_app (l1 l2 : list R) :
  sum_list (l1 ++ l2) = sum_list l1 + sum_list l2.
Proof.
  induction l1 as [| x l1 IH]; [change ([] ++ l2) with l2; rewrite sum_list_nil; lra |].
  change ((x :: l1) ++ l2) with (x :: (l1 ++ l2)). rewrite !sum_list_cons, IH. lra.
Qed.

Ltac sum_step :=
  cbn [map fmap list_fmap mbind list_bind app];
  rewrite ?sum_list_app, ?sum_list_cons, ?sum_list_nil.

Lemma sum_list_bind {A} (f : A → list R) (l : list A) :
  sum_list (l ≫= f) = sum_list (map (λ x, sum_list (f x)) l).
Proof.
  induction l as [| x l IH]; [done |]. sum_step. by rewrite IH.
Qed.

Lemma sum_list_scale {A} (c : R) (g : A → R) (l : list A) :
  sum_list (map (λ x, c * g x) l) = c * sum_list (map g l).
Proof. induction l as [| x l IH]; sum_step; [lra |]. rewrite IH. lra. Qed.

Lemma sum_list_ext {A} (f g : A → R) (l : list A) :
  (∀ x, x ∈ l → f x = g x) → sum_list (map f l) = sum_list (map g l).
Proof.
  induction l as [| x l IH]; intros Hfg; [done |]. sum_step.
  rewrite (Hfg x) by apply list_elem_of_here.
  rewrite IH; [done |]. intros y Hy. apply Hfg. by apply list_elem_of_further.
Qed.

Lemma sum_list_plus {A} (f g : A → R) (l : list A) :
  sum_list (map (λ x, f x + g x) l) = sum_list (map f l) + sum_list (map g l).
Proof. induction l as [| x l IH]; sum_step; [lra |]. rewrite IH. lra. Qed.

Lemma map_bind {A B C} (g : B → C) (f : A → list B) (l : list A) :
  map g (l ≫= f) = l ≫= (λ x, map g (f x)).
Proof.
  induction l as [| x l IH]; [done |].
  cbn [mbind list_bind]. by rewrite map_app, IH.
Qed.

(** The sum of a product of weights over all combinations is the product
    of the sums. *)
Lemma sum_product5 {A B C D E} (la : list (A * R)) (lb : list (B * R))
    (lc : list (C * R)) (ld : list (D * R)) (le : list (E * R)) :
  sum_list (map (λ '((_, wa), (_, wb), (_, wc), (_, wd), (_, we)),
                   wa * wb * wc * wd * we)
              (product5 la lb lc ld le))
  = sum_list la.*2 * sum_list lb.*2 * sum_list lc.*2 * sum_list ld.*2
    * sum_list le.*2.
Proof.
  unfold product5. rewrite map_bind, sum_list_bind.
  induction la as [| [a wa] la IHa]; sum_step; [lra |]. rewrite IHa. clear IHa.
  cbn [snd]. rewrite map_bind, sum_list_bind.
  assert (Hb : sum_list (map (λ b, sum_list (map
                  (λ '((_, wa0), (_, wb), (_, wc), (_, wd), (_, we)),
                     wa0 * wb * wc * wd * we)
                  (lc ≫= λ c, ld ≫= λ d, le ≫= λ e, [((a, wa), b, c, d, e)]))) lb)
             = wa * (sum_list lb.*2 * sum_list lc.*2 * sum_list ld.*2 * sum_list le.*2)).
  { induction lb as [| [b wb] lb IHb]; sum_step; [lra |]. rewrite IHb. clear IHb.
    cbn [snd]. rewrite map_bind, sum_list_bind.
    assert (Hc : sum_list (map (λ c, sum_list (map
                    (λ '((_, wa0), (_, wb0), (_, wc), (_, wd), (_, we)),
                       wa0 * wb0 * wc * wd * we)
                    (ld ≫= λ d, le ≫= λ e, [((a, wa), (b, wb), c, d, e)]))) lc)
               = wa * wb * (sum_list lc.*2 * sum_list ld.*2 * sum_list le.*2)).
    { induction lc as [| [c wc] lc IHc]; sum_step; [lra |]. rewrite IHc. clear IHc.
      cbn [snd]. rewrite map_bind, sum_list_bind.
      assert (Hd : sum_list (map (λ d, sum_list (map
                      (λ '((_, wa0), (_, wb0), (_, wc0), (_, wd), (_, we)),
                         wa0 * wb0 * wc0 * wd * we)
                      (le ≫= λ e, [((a, wa), (b, wb), (c, wc), d, e)]))) ld)
                 = wa * wb * wc * (sum_list ld.*2 * sum_list le.*2)).
      { induction ld as [| [d wd] ld IHd]; sum_step; [lra |]. rewrite IHd. clear IHd.
        cbn [snd]. rewrite map_bind, sum_list_bind.
        assert (He : sum_list (map (λ e, sum_list (map
                        (λ '((_, wa0), (_, wb0), (_, wc0), (_, wd0), (_, we)),
                           wa0 * wb0 * wc0 * wd0 * we)
                        [((a, wa), (b, wb), (c, wc), (d, wd), e)])) le)
                   = wa * wb * wc * wd * sum_list le.*2).
        { rewrite (sum_list_ext _ (λ e, wa * wb * wc * wd * e.2)).
          - apply (sum_list_scale _ snd).
          - intros [e we] _. sum_step. cbn [snd]. lra. }
        rewrite He. lra. }
      rewrite Hd. lra. }
    rewrite Hc. lra. }
  rewrite Hb. lra.
Qed.

Lemma build_priors_Ok_inv fs prior_cpds :
  build_priors fs = Ok prior_cpds →
  ∃ priors, load_priors fs = Ok priors
    ∧ Forall2 (λ entry cpd, cpd = prior_cpd_of entry.1 entry.2
                 ∧ length (values entry.2) = length (states entry.2)
                 ∧ NoDup (states entry.2)) priors prior_cpds.
Proof.
  unfold build_priors. destruct (load_priors fs) as [priors |]; [cbn | done].
  intros Hloop%for_append_Ok. exists priors. split; [done |].
  eapply Forall2_impl; [exact Hloop |].
  intros [name spec] cpd. cbn. unfold new_TabularCPD.
  case_decide as Hshape; [| done]. intros [= <-].
  destruct Hshape as (_ & Hlen & _ & Hnd). rewrite length_map in Hlen.
  apply Forall_cons in Hnd as [Hnd _]. done.
Qed.

Lemma check_model_Ok_inv model valid :
  check_model model = Ok valid →
  valid = true ∧ one_cpt_per_variable model ∧ parents_match_edges model
  ∧ distributions_sum_to_one model ∧ edges_acyclic model.
Proof.
  unfold check_model.
  destruct (decide (one_cpt_per_variable model)) as [H1 |]; [| done].
  destruct (decide (parents_match_edges model)) as [H2 |]; [| done].
  destruct (decide (distributions_sum_to_one model)) as [H3 |]; [| done].
  destruct (decide (edges_acyclic model)) as [H4 |]; [| done].
  by intros [= <-].
Qed.

Lemma assemble_Ok_inv fs bias WEIGHTS model :
  assemble fs bias WEIGHTS = Ok model →
  ∃ fraud_cpd prior_cpds,
    build_fraud_cpd fs bias WEIGHTS = Ok fraud_cpd
    ∧ build_priors fs = Ok prior_cpds
    ∧ model = add_cpds FraudBN_init (prior_cpds ++ [fraud_cpd])
    ∧ one_cpt_per_variable model ∧ parents_match_edges model
    ∧ distributions_sum_to_one model ∧ edges_acyclic model.
Proof.
  unfold assemble.
  destruct (build_fraud_cpd fs bias WEIGHTS) as [fraud_cpd |]; [cbn | done].
  destruct (build_priors fs) as [prior_cpds |]; [cbn | done].
  destruct (check_model _) as [valid |] eqn:Hcheck; [cbn | done].
  apply check_model_Ok_inv in Hcheck as (-> & H1 & H2 & H3 & H4). cbn.
  intros [= <-]. by exists fraud_cpd, prior_cpds.
Qed.

Lemma get_cpds_Some model node :
  length (filter (λ cpd, variable cpd = node) (cpds model)) = 1%nat →
  ∃ cpd, get_cpds model node = Some cpd ∧ cpd ∈ cpds model ∧ variable cpd = node
         ∧ ∀ cpd', cpd' ∈ cpds model → variable cpd' = node → cpd' = cpd.
Proof.
  unfold get_cpds. intros Hone.
  destruct (filter _ _) as [| cpd [| ? ?]] eqn:Hf; try done.
  exists cpd.
  assert (Hin : cpd ∈ filter (λ cpd, variable cpd = node) (cpds model))
    by (rewrite Hf; apply list_elem_of_here).
  apply list_elem_of_filter in Hin as [Hv Hin].
  split_and!; [done | done | done |].
  intros cpd' Hin' Hv'.
  assert (H' : cpd' ∈ filter (λ cpd, variable cpd = node) (cpds model))
    by (by apply list_elem_of_filter).
  rewrite Hf in H'. by apply list_elem_of_singleton in H'.
Qed.

Lemma nodes_add_cpds cpds' :
  nodes (add_cpds FraudBN_init cpds') = EVIDENCE_NODES ++ ["Fraud"].
Proof. vm_compute. reflexivity. Qed.

Lemma Fraud_not_evidence : "Fraud" ∉ EVIDENCE_NODES.
Proof. refine (bool_decide_unpack _ _). vm_compute. exact I. Qed.

Lemma column_singletons (vals : list R) :
  column (map (λ probability, [probability]) vals) 0 = vals.
Proof.
  unfold column. induction vals as [| v vals IH]; [done |]. cbn. by rewrite IH.
Qed.

Lemma states_in_prior_cpd name spec : states_in (prior_cpd_of name spec) name = states spec.
Proof. unfold states_in, prior_cpd_of. cbn. by rewrite decide_True. Qed.

(** In an assembled network each evidence node has the one prior CPD
    that [build_priors] made for it: its states are those the Fraud CPD
    lists for the node, and its probabilities, one per state, sum to one
    within the tolerance. *)
Lemma assembled_prior prior_cpds fraud_cpd node :
  let model := add_cpds FraudBN_init (prior_cpds ++ [fraud_cpd]) in
  variable fraud_cpd = "Fraud" →
  node ∈ evidence fraud_cpd → node ≠ "Fraud" →
  states_in fraud_cpd node ≠ [] →
  Forall (λ cpd, ∃ name spec, cpd = prior_cpd_of name spec
                   ∧ length (values spec) = length (states spec)) prior_cpds →
  one_cpt_per_variable model → parents_match_edges model →
  distributions_sum_to_one model →
  node ∈ nodes model →
  ∃ spec, get_cpds model node = Some (prior_cpd_of node spec)
    ∧ states spec = states_in fraud_cpd node
    ∧ length (values spec) = length (states spec)
    ∧ Rabs (sum_list (values spec) - 1) <= tolerance.
Proof.
  intros model Hfv Hev Hne Hnonempty Hpriors [Hone _] Hparents Hsums Hnode.
  rewrite Forall_forall in Hone. specialize (Hone _ Hnode).
  destruct (get_cpds_Some model node Hone) as (cpd & Hget & Hin & Hvar & _).
  assert (Hin' : cpd ∈ prior_cpds).
  { unfold model in Hin. cbn in Hin. apply elem_of_app in Hin as [Hin | Hin]; [done |].
    apply list_elem_of_singleton in Hin. subst cpd. congruence. }
  rewrite Forall_forall in Hpriors.
  destruct (Hpriors _ Hin') as (name & spec & -> & Hlen).
  cbn in Hvar. subst name. exists spec. split; [done |].
  assert (Hstates : states spec = states_in fraud_cpd node).
  { unfold parents_match_edges in Hparents. rewrite Forall_forall in Hparents.
    destruct (Hparents fraud_cpd) as [_ Hpar].
    { unfold model. cbn. apply elem_of_app. right. apply list_elem_of_here. }
    rewrite Forall_forall in Hpar. specialize (Hpar _ Hev).
    rewrite Forall_forall in Hpar. destruct (Hpar _ Hin eq_refl) as [_ Heq].
    by rewrite Heq, states_in_prior_cpd. }
  split; [done |]. split; [done |].
  unfold distributions_sum_to_one in Hsums. rewrite Forall_forall in Hsums.
  specialize (Hsums _ Hin). rewrite Forall_forall in Hsums.
  rewrite <- (column_singletons (values spec)). apply (Hsums 0%nat).
  unfold prior_cpd_of. cbn [cpd_values].
  destruct (values spec) as [| v vals] eqn:Hvals.
  { exfalso. apply Hnonempty. rewrite <- Hstates. cbn in Hlen.
    by destruct (states spec). }
  cbn. apply list_elem_of_here.
Qed.

Lemma assembled_fraud_cpd prior_cpds fraud_cpd :
  let model := add_cpds FraudBN_init (prior_cpds ++ [fraud_cpd]) in
  variable fraud_cpd = "Fraud" → one_cpt_per_variable model →
  get_cpds model "Fraud" = Some fraud_cpd.
Proof.
  intros model Hvar [Hone _]. rewrite Forall_forall in Hone.
  destruct (get_cpds_Some model "Fraud") as (cpd & Hget & _ & _ & Huniq).
  { apply Hone. unfold model. rewrite nodes_add_cpds.
    apply elem_of_app. right. apply list_elem_of_here. }
  rewrite Hget. f_equal. symmetry. apply Huniq; [| done].
  unfold model. cbn. apply elem_of_app. right. apply list_elem_of_here.
Qed.

Lemma columns_two (l : list R) (f : R → R) :
  map (column [l; map f l]) (seq 0 (length l)) = map (λ q, [q; f q]) l.
Proof.
  apply list_eq. intros i. rewrite !list_lookup_fmap.
  destruct (decide (i < length l)%nat) as [Hlt | Hge].
  - rewrite lookup_seq_lt by done. cbn.
    destruct (lookup_lt_is_Some_2 l i Hlt) as [q Hq].
    unfold column. cbn. rewrite list_lookup_fmap, Hq. done.
  - rewrite lookup_seq_ge by lia. cbn.
    by rewrite lookup_ge_None_2 by lia.
Qed.

Lemma cpt_table_fraud_cpd ps ds ss xs ms p_fraud_yes :
  cpt_table (fraud_cpd_of ps ds ss xs ms p_fraud_yes)
  = zip (product5 ps ds ss xs ms) (map (λ q, [q; 1 - q]) p_fraud_yes).
Proof.
  unfold cpt_table. f_equal.
  change (cpd_values (fraud_cpd_of ps ds ss xs ms p_fraud_yes))
    with [p_fraud_yes; map (λ prob, 1 - prob) p_fraud_yes].
  change (ncols [p_fraud_yes; map (λ prob, 1 - prob) p_fraud_yes])
    with (length p_fraud_yes).
  apply columns_two.
Qed.

Lemma cpt_row_zip {A} (P : string * string * string * string * string → A → Prop)
    (g : A → list R) tuples (ys : list A) tuple :
  Forall2 P tuples ys → tuple ∈ tuples →
  ∃ y, P tuple y ∧ cpt_row (zip tuples (map g ys)) tuple = g y.
Proof.
  induction 1 as [| t y tuples ys Hty _ IH]; intros Hin; [by apply elem_of_nil in Hin |].
  cbn. destruct (decide (t = tuple)) as [-> | Hne]; [by exists y |].
  apply elem_of_cons in Hin as [-> | Hin]; [done |]. by apply IH.
Qed.

(** The row of the Fraud CPT at a tuple of declared states. *)
Lemma cpt_row_fraud_cpd bias WEIGHTS ps ds ss xs ms p_fraud_yes tuple :
  for_append (fraud_probability bias WEIGHTS) (product5 ps ds ss xs ms)
  = Ok p_fraud_yes →
  tuple ∈ product5 ps ds ss xs ms →
  ∃ q, fraud_probability bias WEIGHTS tuple = Ok q
       ∧ cpt_row (cpt_table (fraud_cpd_of ps ds ss xs ms p_fraud_yes)) tuple
         = [q; 1 - q].
Proof.
  intros Hloop%for_append_Ok Hin. rewrite cpt_table_fraud_cpd.
  by apply (cpt_row_zip (λ t q, fraud_probability bias WEIGHTS t = Ok q)).
Qed.

Lemma assembled_facts fs bias WEIGHTS model :
  assemble fs bias WEIGHTS = Ok model →
  ∃ ps ds ss xs ms p_fraud_yes,
    (parent_states fs "Porting" = Ok ps
     ∧ parent_states fs "DarkWeb" = Ok ds
     ∧ parent_states fs "StateMatch" = Ok ss
     ∧ parent_states fs "ProxyFlag" = Ok xs
     ∧ parent_states fs "MAID_NightDistance" = Ok ms)
    ∧ for_append (fraud_probability bias WEIGHTS) (product5 ps ds ss xs ms)
      = Ok p_fraud_yes
    ∧ get_cpds model "Fraud" = Some (fraud_cpd_of ps ds ss xs ms p_fraud_yes)
    ∧ nodes model = EVIDENCE_NODES ++ ["Fraud"]
    ∧ prior_ok model "Porting" ps
    ∧ prior_ok model "DarkWeb" ds
    ∧ prior_ok model "StateMatch" ss
    ∧ prior_ok model "ProxyFlag" xs
    ∧ prior_ok model "MAID_NightDistance" ms.
Proof.
  intros (fraud_cpd & prior_cpds & Hbuild & Hpriors & -> & Hone & Hpar & Hsum & _)
    %assemble_Ok_inv.
  apply build_fraud_cpd_Ok_inv in Hbuild
    as (ps & ds & ss & xs & ms & pfy & Hps & Hds & Hss & Hxs & Hms & Hloop & Hcount & ->).
  apply build_priors_Ok_inv in Hpriors as (priors & _ & Hall).
  assert (Hprior : Forall (λ cpd, ∃ name spec, cpd = prior_cpd_of name spec
                     ∧ length (values spec) = length (states spec)) prior_cpds).
  { apply Forall_forall. intros cpd Hin.
    apply list_elem_of_lookup in Hin as [i Hi].
    destruct (Forall2_lookup_r _ _ _ _ _ Hall Hi) as ([name spec] & _ & -> & Hlen & _).
    by exists name, spec. }
  assert (Hfacts : ∀ node sts,
            node ∈ EVIDENCE_NODES →
            states_in (fraud_cpd_of ps ds ss xs ms pfy) node = sts → sts ≠ [] →
            prior_ok (add_cpds FraudBN_init (prior_cpds ++ [fraud_cpd_of ps ds ss xs ms pfy]))
              node sts).
  { intros node sts Hnode <- Hnonempty.
    destruct (assembled_prior prior_cpds (fraud_cpd_of ps ds ss xs ms pfy) node)
      as (spec & Hget & Hst & Hlen & Hs); try done.
    - intros ->. by apply Fraud_not_evidence in Hnode.
    - rewrite nodes_add_cpds. apply elem_of_app. by left.
    - exists spec. rewrite <- Hst. done. }
  exists ps, ds, ss, xs, ms, pfy.
  split; [done |]. split; [done |]. split; [by apply assembled_fraud_cpd |].
  split; [apply nodes_add_cpds |].
  unfold EVIDENCE_NODES in Hfacts.
  split_and!; apply Hfacts; try reflexivity;
    try (repeat first [apply list_elem_of_here | apply list_elem_of_further]);
    intros ->; cbn in Hcount; lia.
Qed.

Lemma tolerance_small : 0 < tolerance < 1.
Proof.
  unfold tolerance. assert (1 < 10 ^ 6) by (apply Rlt_pow_R1; [lra | lia]).
  split; [apply Rinv_0_lt_compat; lra |].
  rewrite <- Rinv_1. apply Rinv_lt_contravar; lra.
Qed.

Lemma Rabs_le_bounds (a b : R) : Rabs a <= b → - b <= a <= b.
Proof.
  intros H. pose proof (Rle_abs a). pose proof (Rle_abs (- a)) as Hn.
  rewrite Rabs_Ropp in Hn. lra.
Qed.

Lemma near_one_positive (S : R) : Rabs (S - 1) <= tolerance → 0 < S.
Proof.
  intros H%Rabs_le_bounds. pose proof tolerance_small. lra.
Qed.

(** The reduced factor of an evidence node of an assembled network: its
    states are declared states of the node, and its weights sum to one
    within the tolerance. *)
Lemma reduced_factor_ok model ev node sts :
  prior_ok model node sts → valid_evidence model ev →
  Forall (λ sw, sw.1 ∈ sts) (reduced_factor model ev node)
  ∧ Rabs (sum_list (reduced_factor model ev node).*2 - 1) <= tolerance.
Proof.
  intros (spec & Hget & Hst & Hlen & Hsum) Hvalid. unfold reduced_factor.
  destruct (ev !! node) as [observed |] eqn:Hev.
  - destruct (Hvalid node observed Hev) as (_ & cpd & Hget' & Hin).
    rewrite Hget in Hget'. injection Hget' as <-.
    rewrite states_in_prior_cpd, Hst in Hin. split; [by repeat constructor |].
    change (sum_list [(observed, 1)].*2) with (1 + 0).
    replace (1 + 0 - 1) with 0 by lra. rewrite Rabs_R0.
    pose proof tolerance_small. lra.
  - unfold prior_factor. rewrite Hget, states_in_prior_cpd.
    change (cpd_values (prior_cpd_of node spec))
      with (map (λ probability, [probability]) (values spec)).
    rewrite column_singletons, Hst. split.
    + apply Forall_forall. intros [s w] Hin. cbn. by apply elem_of_zip_l in Hin.
    + rewrite snd_zip by lia. done.
Qed.

Lemma target_mass_sum bias WEIGHTS model ev ps ds ss xs ms p_fraud_yes :
  for_append (fraud_probability bias WEIGHTS) (product5 ps ds ss xs ms)
  = Ok p_fraud_yes →
  ev !! "Fraud" = None →
  Forall (λ sw, sw.1 ∈ ps) (reduced_factor model ev "Porting") →
  Forall (λ sw, sw.1 ∈ ds) (reduced_factor model ev "DarkWeb") →
  Forall (λ sw, sw.1 ∈ ss) (reduced_factor model ev "StateMatch") →
  Forall (λ sw, sw.1 ∈ xs) (reduced_factor model ev "ProxyFlag") →
  Forall (λ sw, sw.1 ∈ ms) (reduced_factor model ev "MAID_NightDistance") →
  target_mass model ev (fraud_cpd_of ps ds ss xs ms p_fraud_yes) 0
  + target_mass model ev (fraud_cpd_of ps ds ss xs ms p_fraud_yes) 1
  = sum_list (reduced_factor model ev "Porting").*2
    * sum_list (reduced_factor model ev "DarkWeb").*2
    * sum_list (reduced_factor model ev "StateMatch").*2
    * sum_list (reduced_factor model ev "ProxyFlag").*2
    * sum_list (reduced_factor model ev "MAID_NightDistance").*2.
Proof.
  intros Hloop Hnone Hp Hd Hs Hx Hm. unfold target_mass. rewrite Hnone.
  rewrite <- sum_list_plus, <- sum_product5.
  apply sum_list_ext.
  intros [[[[[p wp] [d wd]] [s ws]] [x wx]] [m wm]]
    (Hip & Hid & His & Hix & Him)%elem_of_product5.
  rewrite Forall_forall in Hp, Hd, Hs, Hx, Hm.
  destruct (cpt_row_fraud_cpd bias WEIGHTS ps ds ss xs ms p_fraud_yes (p, d, s, x, m) Hloop)
    as (q & _ & ->).
  { apply elem_of_product5.
    split_and!; [apply (Hp _ Hip) | apply (Hd _ Hid) | apply (Hs _ His)
                 | apply (Hx _ Hix) | apply (Hm _ Him)]. }
  cbn. lra.
Qed.

(** [score_case] on an assembled network, in terms of the masses of the
    two target states. *)
Lemma score_case_masses fs bias WEIGHTS model ev :
  assemble fs bias WEIGHTS = Ok model →
  valid_evidence model ev → ev !! "Fraud" = None →
  ∃ fraud_cpd m0 m1,
    get_cpds model "Fraud" = Some fraud_cpd
    ∧ m0 = target_mass model ev fraud_cpd 0
    ∧ m1 = target_mass model ev fraud_cpd 1
    ∧ 0 < m0 + m1
    ∧ score_case model ev
      = Ok (<["Legit" := m1 / (m0 + m1)]> (<["Fraud" := m0 / (m0 + m1)]> ∅)).
Proof.
  intros Hasm Hvalid Hnone.
  destruct (assembled_facts _ _ _ _ Hasm)
    as (ps & ds & ss & xs & ms & pfy & _ & Hloop & Hget & _ & Hp & Hd & Hs & Hx & Hm).
  destruct (reduced_factor_ok _ _ _ _ Hp Hvalid) as [Hp1 Hp2].
  destruct (reduced_factor_ok _ _ _ _ Hd Hvalid) as [Hd1 Hd2].
  destruct (reduced_factor_ok _ _ _ _ Hs Hvalid) as [Hs1 Hs2].
  destruct (reduced_factor_ok _ _ _ _ Hx Hvalid) as [Hx1 Hx2].
  destruct (reduced_factor_ok _ _ _ _ Hm Hvalid) as [Hm1 Hm2].
  pose proof (target_mass_sum bias WEIGHTS model ev ps ds ss xs ms pfy Hloop Hnone
                Hp1 Hd1 Hs1 Hx1 Hm1) as Hsum.
  apply near_one_positive in Hp2, Hd2, Hs2, Hx2, Hm2.
  set (cpd := fraud_cpd_of ps ds ss xs ms pfy) in *.
  set (m0 := target_mass model ev cpd 0) in *.
  set (m1 := target_mass model ev cpd 1) in *.
  exists cpd, m0, m1. split; [done |]. split; [done |]. split; [done |].
  assert (Hpos : 0 < m0 + m1).
  { rewrite Hsum. repeat apply Rmult_lt_0_compat; done. }
  split; [done |].
  unfold score_case, query. rewrite decide_True by done. rewrite Hget.
  change (variable_card cpd) with 2%nat.
  change (map (target_mass model ev cpd) (seq 0 2)) with [m0; m1].
  change (states_in cpd "Fraud") with ["Fraud"; "Legit"].
  replace (sum_list [m0; m1]) with (m0 + m1)
    by (rewrite !sum_list_cons, sum_list_nil; lra).
  reflexivity.
Qed.

(** On the modelled inference: for an assembled network and valid
    evidence on evidence nodes,
    the empty evidence included, [score_case] returns the mapping
    [{"Fraud": p, "Legit": 1 - p}], whose two values sum to one within the
    tolerance. *)
Theorem score_case_distribution fs bias WEIGHTS model ev :
  assemble fs bias WEIGHTS = Ok model →
  valid_evidence model ev → ev !! "Fraud" = None →
  ∃ p, score_case model ev = Ok (<["Legit" := 1 - p]> (<["Fraud" := p]> ∅))
       ∧ Rabs (p + (1 - p) - 1) <= 1 / 10 ^ 6.
Proof.
  intros Hasm Hvalid Hnone.
  destruct (score_case_masses _ _ _ _ _ Hasm Hvalid Hnone)
    as (cpd & m0 & m1 & _ & _ & _ & Hpos & Hrun).
  exists (m0 / (m0 + m1)). split.
  - rewrite Hrun. do 2 f_equal. field. lra.
  - replace (m0 / (m0 + m1) + (1 - m0 / (m0 + m1)) - 1) with 0 by lra.
    rewrite Rabs_R0. apply Rlt_le, Rdiv_lt_0_compat; [lra | apply pow_lt; lra].
Qed.

Lemma for_append_map {A B} (f : A → result B) (g : A → B) (l : list A) :
  Forall (λ x, f x = Ok (g x)) l → for_append f l = Ok (map g l).
Proof.
  induction 1 as [| x l Hx _ IH]; [done |]. cbn. by rewrite Hx, IH.
Qed.

Lemma build_priors_returns fs priors :
  load_priors fs = Ok priors →
  Forall (λ entry, length (values entry.2) = length (states entry.2)
                   ∧ NoDup (states entry.2)) priors →
  build_priors fs = Ok (map (λ entry, prior_cpd_of entry.1 entry.2) priors).
Proof.
  intros Hload Hall. unfold build_priors. rewrite Hload. cbn.
  apply for_append_map. eapply Forall_impl; [exact Hall |].
  intros [name spec] [Hlen Hnd]. cbn in *. unfold new_TabularCPD.
  rewrite decide_True; [done |].
  split_and!; [done | by rewrite length_map | | by repeat constructor].
  apply Forall_fmap, Forall_forall. done.
Qed.

Lemma assemble_returns fs bias WEIGHTS fraud_cpd prior_cpds :
  let model := add_cpds FraudBN_init (prior_cpds ++ [fraud_cpd]) in
  build_fraud_cpd fs bias WEIGHTS = Ok fraud_cpd →
  build_priors fs = Ok prior_cpds →
  one_cpt_per_variable model → parents_match_edges model →
  distributions_sum_to_one model → edges_acyclic model →
  assemble fs bias WEIGHTS = Ok model.
Proof.
  intros model Hbuild Hpriors H1 H2 H3 H4. unfold assemble.
  rewrite Hbuild. cbn. rewrite Hpriors. cbn. fold model.
  unfold check_model. by rewrite !decide_True.
Qed.

(** The columns of the Fraud CPD sum to one. *)
Lemma fraud_cpd_sums ps ds ss xs ms p_fraud_yes :
  let cpd := fraud_cpd_of ps ds ss xs ms p_fraud_yes in
  Forall (λ j, Rabs (sum_list (column (cpd_values cpd) j) - 1) <= tolerance)
    (seq 0 (ncols (cpd_values cpd))).
Proof.
  intros cpd.
  assert (H : Forall (λ col, Rabs (sum_list col - 1) <= tolerance)
                (map (column [p_fraud_yes; map (λ prob, 1 - prob) p_fraud_yes])
                   (seq 0 (length p_fraud_yes)))).
  { rewrite columns_two. apply Forall_fmap, Forall_forall. intros q _. cbn.
    replace (q + (1 - q + 0) - 1) with 0 by lra. rewrite Rabs_R0.
    pose proof tolerance_small. lra. }
  apply Forall_fmap in H. exact H.
Qed.

Lemma example_priors_well_formed :
  Forall (λ entry, length (values entry.2) = length (states entry.2)
                   ∧ NoDup (states entry.2)) example_priors.
Proof.
  unfold example_priors.
  repeat first [apply Forall_nil_2 | apply Forall_cons_2]; cbn;
    (split; [reflexivity | refine (bool_decide_unpack _ _); vm_compute; exact I]).
Qed.

Lemma prior_cpd_sums name spec :
  Rabs (sum_list (values spec) - 1) <= tolerance →
  Forall (λ j, Rabs (sum_list (column (cpd_values (prior_cpd_of name spec)) j) - 1)
               <= tolerance)
    (seq 0 (ncols (cpd_values (prior_cpd_of name spec)))).
Proof.
  intros Hsum.
  change (cpd_values (prior_cpd_of name spec))
    with (map (λ probability, [probability]) (values spec)).
  destruct (values spec) as [| v vals] eqn:Hvals; [constructor |].
  change (ncols (map (λ probability, [probability]) (v :: vals))) with 1%nat.
  apply Forall_cons_2; [| apply Forall_nil_2]. by rewrite column_singletons.
Qed.

Lemma example_priors_sum :
  Forall (λ entry, Rabs (sum_list (values entry.2) - 1) <= tolerance) example_priors.
Proof.
  pose proof tolerance_small as Htol. unfold example_priors.
  repeat first [apply Forall_nil_2 | apply Forall_cons_2];
    cbn [snd values]; rewrite ?sum_list_cons, ?sum_list_nil;
    match goal with |- Rabs ?x <= _ => replace x with 0 by lra end;
    rewrite Rabs_R0; lra.
Qed.

Lemma example_assembles :
  ∃ model, assemble example_files example_bias example_weights = Ok model.
Proof.
  destruct example_fraud_cpd as [pfy Hbuild].
  pose proof (build_priors_returns example_files example_priors eq_refl
                example_priors_well_formed) as Hpriors.
  eexists. apply (assemble_returns _ _ _ _ _ Hbuild Hpriors).
  - refine (bool_decide_unpack _ _). vm_compute. exact I.
  - refine (bool_decide_unpack _ _). vm_compute. exact I.
  - unfold distributions_sum_to_one. cbn [cpds add_cpds FraudBN_init app].
    apply Forall_app. split.
    + apply Forall_fmap. eapply Forall_impl; [exact example_priors_sum |].
      intros [name spec] Hsum. by apply prior_cpd_sums.
    + apply Forall_cons_2; [| apply Forall_nil_2]. apply fraud_cpd_sums.
  - vm_compute. reflexivity.
Qed.

Lemma score_case_distribution_witness :
  ∃ model, assemble example_files example_bias example_weights = Ok model
    ∧ ∃ p, score_case model ∅ = Ok (<["Legit" := 1 - p]> (<["Fraud" := p]> ∅))
           ∧ Rabs (p + (1 - p) - 1) <= 1 / 10 ^ 6.
Proof.
  destruct example_assembles as [model Hasm]. exists model. split; [exact Hasm |].
  apply (score_case_distribution example_files example_bias example_weights model ∅ Hasm).
  - apply map_Forall_empty.
  - apply lookup_empty.
Defined.

(** With every evidence node observed, the score is the entry of the
    Fraud CPT for the observed states. *)
Lemma score_case_full_evidence fs bias WEIGHTS model ev e1 e2 e3 e4 e5 :
  assemble fs bias WEIGHTS = Ok model →
  valid_evidence model ev → ev !! "Fraud" = None →
  ev !! "Porting" = Some e1 → ev !! "DarkWeb" = Some e2 →
  ev !! "StateMatch" = Some e3 → ev !! "ProxyFlag" = Some e4 →
  ev !! "MAID_NightDistance" = Some e5 →
  ∃ q, fraud_probability bias WEIGHTS (e1, e2, e3, e4, e5) = Ok q
       ∧ score_case model ev = Ok (<["Legit" := 1 - q]> (<["Fraud" := q]> ∅)).
Proof.
  intros Hasm Hvalid Hnone H1 H2 H3 H4 H5.
  destruct (assembled_facts _ _ _ _ Hasm)
    as (ps & ds & ss & xs & ms & pfy & _ & Hloop & Hget & _ & Hp & Hd & Hs & Hx & Hm).
  destruct (reduced_factor_ok _ _ _ _ Hp Hvalid) as [Hp1 _].
  destruct (reduced_factor_ok _ _ _ _ Hd Hvalid) as [Hd1 _].
  destruct (reduced_factor_ok _ _ _ _ Hs Hvalid) as [Hs1 _].
  destruct (reduced_factor_ok _ _ _ _ Hx Hvalid) as [Hx1 _].
  destruct (reduced_factor_ok _ _ _ _ Hm Hvalid) as [Hm1 _].
  destruct (score_case_masses _ _ _ _ _ Hasm Hvalid Hnone)
    as (cpd & m0 & m1 & Hget' & Hm0 & Hm1' & Hpos & Hrun).
  rewrite Hget in Hget'. injection Hget' as <-.
  unfold reduced_factor in Hp1, Hd1, Hs1, Hx1, Hm1.
  rewrite H1 in Hp1. rewrite H2 in Hd1. rewrite H3 in Hs1. rewrite H4 in Hx1.
  rewrite H5 in Hm1.
  apply Forall_cons in Hp1 as [Hp1 _]. apply Forall_cons in Hd1 as [Hd1 _].
  apply Forall_cons in Hs1 as [Hs1 _]. apply Forall_cons in Hx1 as [Hx1 _].
  apply Forall_cons in Hm1 as [Hm1 _]. cbn in Hp1, Hd1, Hs1, Hx1, Hm1.
  destruct (cpt_row_fraud_cpd bias WEIGHTS ps ds ss xs ms pfy (e1, e2, e3, e4, e5) Hloop)
    as (q & Hq & Hrow); [by apply elem_of_product5 |].
  exists q. split; [done |].
  assert (Hmass : ∀ k, target_mass model ev (fraud_cpd_of ps ds ss xs ms pfy) k
                       = default 0 ([q; 1 - q] !! k)).
  { intros k. unfold target_mass, reduced_factor.
    rewrite Hnone, H1, H2, H3, H4, H5.
    change (product5 [(e1, 1)] [(e2, 1)] [(e3, 1)] [(e4, 1)] [(e5, 1)])
      with [((e1, 1), (e2, 1), (e3, 1), (e4, 1), (e5, 1))].
    cbn [map]. rewrite sum_list_cons, sum_list_nil, Hrow. lra. }
  rewrite (Hmass 0%nat) in Hm0. rewrite (Hmass 1%nat) in Hm1'. cbn in Hm0, Hm1'.
  subst m0 m1. rewrite Hrun.
  replace (q + (1 - q)) with 1 by lra. by rewrite !Rdiv_1_r.
Qed.

Lemma train_Ok_inv settings fs raw fs' bias WEIGHTS :
  raw_probs_json fs = Some raw →
  outcome (train_and_save_weights settings fs) = Ok (fs', (bias, WEIGHTS)) →
  Forall in_range (input_probabilities settings raw)
  ∧ bias = ln (base_fraud_rate settings / (1 - base_fraud_rate settings))
  ∧ WEIGHTS = assign_weights bias (raw_triples raw) ∅.
Proof.
  intros Hraw Hrun.
  destruct (decide (Forall in_range (input_probabilities settings raw))) as [Hall | Hbad].
  - rewrite (train_in_range settings fs raw Hraw Hall) in Hrun. cbn in Hrun.
    injection Hrun as _ <- <-. done.
  - destruct (train_out_of_range_raises settings fs raw Hraw Hbad) as (e & Hfail).
    rewrite Hfail in Hrun. done.
Qed.

Lemma ln_odds_mono (p q : R) :
  in_range p → in_range q → p <= q → ln (p / (1 - p)) <= ln (q / (1 - q)).
Proof.
  intros [Hp0 Hp1] [Hq0 Hq1] Hpq.
  apply ln_le_mono; [apply Rdiv_lt_0_compat; lra |].
  apply (Rmult_le_reg_r ((1 - p) * (1 - q))); [apply Rmult_lt_0_compat; lra |].
  replace (p / (1 - p) * ((1 - p) * (1 - q))) with (p * (1 - q)) by (field; lra).
  replace (q / (1 - q) * ((1 - p) * (1 - q))) with (q * (1 - p)) by (field; lra).
  nra.
Qed.

(** Weights derived from raw probabilities are monotone in the raw
    probability of the state. *)
Lemma derived_weights_mono settings raw bias feature sts benign suspicious p_b p_s :
  Forall in_range (input_probabilities settings raw) →
  NoDup (map (λ t, weight_key t.1.1 t.1.2) (raw_triples raw)) →
  (feature, sts) ∈ raw → (benign, p_b) ∈ sts → (suspicious, p_s) ∈ sts →
  p_b <= p_s →
  ∃ w_b w_s,
    assign_weights bias (raw_triples raw) ∅ !! weight_key feature benign = Some w_b
    ∧ assign_weights bias (raw_triples raw) ∅ !! weight_key feature suspicious = Some w_s
    ∧ w_b <= w_s.
Proof.
  intros [_ Hall]%Forall_cons Hnd Hf Hb Hs Hle.
  assert (Htb : (feature, benign, p_b) ∈ raw_triples raw)
    by (apply elem_of_raw_triples; by exists sts).
  assert (Hts : (feature, suspicious, p_s) ∈ raw_triples raw)
    by (apply elem_of_raw_triples; by exists sts).
  rewrite Forall_fmap, Forall_forall in Hall.
  pose proof (Hall _ Htb) as Hrb. pose proof (Hall _ Hts) as Hrs. cbn in Hrb, Hrs.
  eexists _, _. split; [by apply assign_weights_lookup_NoDup |].
  split; [by apply assign_weights_lookup_NoDup |].
  pose proof (ln_odds_mono p_b p_s Hrb Hrs Hle). lra.
Qed.

(** The Fraud probability of a fully observed case does not decrease
    when the weight of one observed state is replaced by a larger one. *)
Lemma fraud_probability_mono bias WEIGHTS t t' q q' :
  fraud_probability bias WEIGHTS t = Ok q →
  fraud_probability bias WEIGHTS t' = Ok q' →
  Forall2 (λ k k', ∀ w w', WEIGHTS !! k = Some w → WEIGHTS !! k' = Some w' → w <= w')
    (tuple_keys t) (tuple_keys t') →
  q <= q'.
Proof.
  destruct t as [[[[p d] s] x] m], t' as [[[[p' d'] s'] x'] m'].
  intros (w_p & w_d & w_s & w_x & w_m & Hp & Hd & Hs & Hx & Hm & Hq)
    %fraud_probability_Ok_inv
    (v_p & v_d & v_s & v_x & v_m & Hp' & Hd' & Hs' & Hx' & Hm' & Hq')
    %fraud_probability_Ok_inv Hall.
  unfold tuple_keys in Hall.
  apply Forall2_cons in Hall as [H1 Hall]. apply Forall2_cons in Hall as [H2 Hall].
  apply Forall2_cons in Hall as [H3 Hall]. apply Forall2_cons in Hall as [H4 Hall].
  apply Forall2_cons in Hall as [H5 _].
  pose proof (H1 _ _ Hp Hp'). pose proof (H2 _ _ Hd Hd'). pose proof (H3 _ _ Hs Hs').
  pose proof (H4 _ _ Hx Hx'). pose proof (H5 _ _ Hm Hm').
  eapply sigmoid_mono; [| exact Hq | exact Hq']. lra.
Qed.

Lemma same_key_le (WEIGHTS : gmap string R) (k : string) (w w' : R) :
  WEIGHTS !! k = Some w → WEIGHTS !! k = Some w' → w <= w'.
Proof. intros H1 H2. rewrite H1 in H2. injection H2 as <-. lra. Qed.

(** On the modelled inference: with derived weights and every other
    evidence node observed
    and held fixed, replacing the state of one evidence node by a state of
    larger or equal raw probability does not lower the Fraud score. *)
Theorem score_case_monotone settings wfs wfs' raw bias WEIGHTS fs model ev
    var sts benign suspicious p_b p_s :
  raw_probs_json wfs = Some raw →
  outcome (train_and_save_weights settings wfs) = Ok (wfs', (bias, WEIGHTS)) →
  NoDup (map (λ t, weight_key t.1.1 t.1.2) (raw_triples raw)) →
  (var, sts) ∈ raw → (benign, p_b) ∈ sts → (suspicious, p_s) ∈ sts →
  p_b <= p_s →
  assemble fs bias WEIGHTS = Ok model →
  var ∈ EVIDENCE_NODES →
  (∀ node, node ∈ EVIDENCE_NODES → node ≠ var → is_Some (ev !! node)) →
  ev !! "Fraud" = None →
  valid_evidence model (<[var := benign]> ev) →
  valid_evidence model (<[var := suspicious]> ev) →
  ∃ f_b f_s,
    score_case model (<[var := benign]> ev)
    = Ok (<["Legit" := 1 - f_b]> (<["Fraud" := f_b]> ∅))
    ∧ score_case model (<[var := suspicious]> ev)
      = Ok (<["Legit" := 1 - f_s]> (<["Fraud" := f_s]> ∅))
    ∧ f_b <= f_s.
Proof.
  intros Hraw Htrain Hnd Hvar Hb Hs Hle Hasm Hnode Hothers Hnone Hvb Hvs.
  destruct (train_Ok_inv _ _ _ _ _ _ Hraw Htrain) as (Hrange & _ & ->).
  destruct (derived_weights_mono settings raw bias var sts benign suspicious p_b p_s
              Hrange Hnd Hvar Hb Hs Hle) as (w_b & w_s & Hwb & Hws & Hw).
  assert (Hget : ∀ st node, node ∈ EVIDENCE_NODES →
            ∃ e, <[var := st]> ev !! node = Some e
                 ∧ (node = var → e = st) ∧ (node ≠ var → ev !! node = Some e)).
  { intros st node Hin. destruct (decide (node = var)) as [-> | Hne].
    - exists st. rewrite lookup_insert_eq. done.
    - destruct (Hothers node Hin Hne) as [e He]. exists e.
      rewrite lookup_insert_ne by done. done. }
  assert (Hfraud : ∀ st, <[var := st]> ev !! "Fraud" = None).
  { intros st. rewrite lookup_insert_ne; [done |].
    intros ->. by apply Fraud_not_evidence in Hnode. }
  unfold EVIDENCE_NODES in Hget.
  destruct (Hget benign "Porting") as (b1 & Hb1 & Hb1e & Hb1n); [repeat first [apply list_elem_of_here | apply list_elem_of_further] |].
  destruct (Hget benign "DarkWeb") as (b2 & Hb2 & Hb2e & Hb2n); [repeat first [apply list_elem_of_here | apply list_elem_of_further] |].
  destruct (Hget benign "StateMatch") as (b3 & Hb3 & Hb3e & Hb3n); [repeat first [apply list_elem_of_here | apply list_elem_of_further] |].
  destruct (Hget benign "ProxyFlag") as (b4 & Hb4 & Hb4e & Hb4n); [repeat first [apply list_elem_of_here | apply list_elem_of_further] |].
  destruct (Hget benign "MAID_NightDistance") as (b5 & Hb5 & Hb5e & Hb5n); [repeat first [apply list_elem_of_here | apply list_elem_of_further] |].
  destruct (Hget suspicious "Porting") as (s1 & Hs1 & Hs1e & Hs1n); [repeat first [apply list_elem_of_here | apply list_elem_of_further] |].
  destruct (Hget suspicious "DarkWeb") as (s2 & Hs2 & Hs2e & Hs2n); [repeat first [apply list_elem_of_here | apply list_elem_of_further] |].
  destruct (Hget suspicious "StateMatch") as (s3 & Hs3 & Hs3e & Hs3n); [repeat first [apply list_elem_of_here | apply list_elem_of_further] |].
  destruct (Hget suspicious "ProxyFlag") as (s4 & Hs4 & Hs4e & Hs4n); [repeat first [apply list_elem_of_here | apply list_elem_of_further] |].
  destruct (Hget suspicious "MAID_NightDistance") as (s5 & Hs5 & Hs5e & Hs5n); [repeat first [apply list_elem_of_here | apply list_elem_of_further] |].
  destruct (score_case_full_evidence _ _ _ _ _ _ _ _ _ _ Hasm Hvb (Hfraud benign)
              Hb1 Hb2 Hb3 Hb4 Hb5) as (f_b & Hfb & Hrb).
  destruct (score_case_full_evidence _ _ _ _ _ _ _ _ _ _ Hasm Hvs (Hfraud suspicious)
              Hs1 Hs2 Hs3 Hs4 Hs5) as (f_s & Hfs & Hrs).
  exists f_b, f_s. split; [done |]. split; [done |].
  apply (fraud_probability_mono _ _ _ _ _ _ Hfb Hfs).
  assert (Hkey : ∀ node b s, (node = var → b = benign) → (node ≠ var → ev !! node = Some b) →
            (node = var → s = suspicious) → (node ≠ var → ev !! node = Some s) →
            ∀ w w', assign_weights bias (raw_triples raw) ∅ !! weight_key node b = Some w →
                    assign_weights bias (raw_triples raw) ∅ !! weight_key node s = Some w' →
                    w <= w').
  { intros node b s Hbe Hbn Hse Hsn w w' Hw1 Hw2.
    destruct (decide (node = var)) as [-> | Hne].
    - rewrite (Hbe eq_refl) in Hw1. rewrite (Hse eq_refl) in Hw2.
      rewrite Hwb in Hw1. rewrite Hws in Hw2.
      injection Hw1 as <-. injection Hw2 as <-. done.
    - pose proof (Hbn Hne) as E1. pose proof (Hsn Hne) as E2.
      rewrite E1 in E2. injection E2 as <-. by apply (same_key_le _ _ _ _ Hw1 Hw2). }
  unfold tuple_keys.
  apply Forall2_cons_2; [exact (Hkey "Porting" b1 s1 Hb1e Hb1n Hs1e Hs1n) |].
  apply Forall2_cons_2; [exact (Hkey "DarkWeb" b2 s2 Hb2e Hb2n Hs2e Hs2n) |].
  apply Forall2_cons_2; [exact (Hkey "StateMatch" b3 s3 Hb3e Hb3n Hs3e Hs3n) |].
  apply Forall2_cons_2; [exact (Hkey "ProxyFlag" b4 s4 Hb4e Hb4n Hs4e Hs4n) |].
  apply Forall2_cons_2; [exact (Hkey "MAID_NightDistance" b5 s5 Hb5e Hb5n Hs5e Hs5n) |].
  apply Forall2_nil_2.
Qed.

Lemma declared_evidence_valid fs bias WEIGHTS model ev :
  assemble fs bias WEIGHTS = Ok model → declared_evidence fs ev →
  valid_evidence model ev ∧ ev !! "Fraud" = None.
Proof.
  intros Hasm Hdecl.
  destruct (assembled_facts _ _ _ _ Hasm)
    as (ps & ds & ss & xs & ms & pfy & (Hps & Hds & Hss & Hxs & Hms) & _ & _ & Hnodes
        & Hp & Hd & Hs & Hx & Hm).
  split.
  - intros var value Hev. destruct (Hdecl var value Hev) as [Hin Hst].
    split; [rewrite Hnodes; apply elem_of_app; by left |].
    assert (Hcase : ∀ node sts, parent_states fs node = Ok sts → prior_ok model node sts →
              var = node → ∃ cpd, get_cpds model var = Some cpd ∧ value ∈ states_in cpd var).
    { intros node sts Hpar (spec & Hget & Hstates & _) ->.
      rewrite Hpar in Hst. exists (prior_cpd_of node spec). split; [done |].
      by rewrite states_in_prior_cpd, Hstates. }
    unfold EVIDENCE_NODES in Hin.
    repeat (apply elem_of_cons in Hin as [Hin | Hin]; [by eauto |]).
    by apply elem_of_nil in Hin.
  - destruct (ev !! "Fraud") as [value |] eqn:Hev; [| done].
    destruct (Hdecl _ _ Hev) as [Hin _]. by apply Fraud_not_evidence in Hin.
Qed.

(** ** More on [sigmoid], [logit] and [bias_for_base_rate] *)

Lemma exp_neg_ln_odds (p : R) :
  in_range p → exp (- ln (p / (1 - p))) = (1 - p) / p.
Proof.
  intros [H0 H1].
  assert (Hodds : 0 < p / (1 - p)) by (apply Rdiv_lt_0_compat; lra).
  rewrite exp_Ropp, exp_ln by done. field. lra.
Qed.

Lemma sigmoid_ln_odds (p : R) :
  in_range p → (1 - p) / p <= DBL_MAX → sigmoid (ln (p / (1 - p))) = Ok p.
Proof.
  intros Hp Hfin. pose proof Hp as [H0 H1].
  rewrite sigmoid_finite by (by rewrite exp_neg_ln_odds).
  rewrite exp_neg_ln_odds by done. f_equal. field. lra.
Qed.

Lemma bias_for_base_rate_outcome (r : R) :
  (bias_for_base_rate r).2 = outcome (logit r).
Proof.
  unfold bias_for_base_rate, logit. cbn [snd].
  by destruct (decide (0 < r ∧ r < 1)).
Qed.

(** From [-709] upwards, however large the logit, [sigmoid] returns the
    logistic value, a probability. *)
Theorem sigmoid_probability (x : R) :
  -709 <= x →
  ∃ p, sigmoid x = Ok p ∧ p = 1 / (1 + exp (- x)) ∧ 0 < p ∧ p <= 1.
Proof.
  intros Hx. exists (1 / (1 + exp (- x))).
  pose proof (sigmoid_returns x Hx) as Hs.
  destruct (sigmoid_Ok_inv _ _ Hs) as [_ [Hp0 Hp1]].
  split; [done |]. split; [done |]. split; lra.
Qed.

Lemma sigmoid_probability_witness :
  ∃ p, sigmoid 1000 = Ok p ∧ p = 1 / (1 + exp (- 1000)) ∧ 0 < p ∧ p <= 1.
Proof. apply (sigmoid_probability 1000). lra. Defined.

(** On finite logits: where [sigmoid] returns, it returns for every
    larger logit too, and with a probability at least as large. *)
Theorem sigmoid_monotone (x y p : R) :
  x <= y → sigmoid x = Ok p → ∃ q, sigmoid y = Ok q ∧ p <= q.
Proof.
  intros Hxy Hx.
  assert (Hfin : exp (- y) <= DBL_MAX).
  { destruct (decide (exp (- x) <= DBL_MAX)) as [Hle | Hgt].
    - apply Rle_trans with (exp (- x)); [apply exp_le_mono; lra | done].
    - rewrite sigmoid_overflow in Hx by lra. done. }
  exists (1 / (1 + exp (- y))). split; [by apply sigmoid_finite |].
  apply (sigmoid_mono x y); [done | done | by apply sigmoid_finite].
Qed.

Lemma sigmoid_monotone_witness :
  ∃ q, sigmoid 1 = Ok q ∧ 1 / (1 + exp (- 0)) <= q.
Proof.
  apply (sigmoid_monotone 0 1 (1 / (1 + exp (- 0)))); [lra |].
  apply sigmoid_returns. lra.
Defined.

(** The probabilities of a logit and of its opposite add up to one. *)
Theorem sigmoid_complement (x : R) :
  -709 <= x <= 709 →
  ∃ p, sigmoid x = Ok p ∧ sigmoid (- x) = Ok (1 - p).
Proof.
  intros [Hlo Hhi]. exists (1 / (1 + exp (- x))).
  split; [by apply sigmoid_returns |].
  rewrite sigmoid_returns by lra. f_equal.
  rewrite Ropp_involutive, exp_Ropp.
  pose proof (exp_pos x). field. split; lra.
Qed.

Lemma sigmoid_complement_witness :
  ∃ p, sigmoid 2 = Ok p ∧ sigmoid (- 2) = Ok (1 - p).
Proof. apply (sigmoid_complement 2). lra. Defined.

(** [sigmoid] undoes [logit]: the log-odds of a probability in range are
    computed without a log record and [sigmoid] maps them back to the
    probability, as long as the odds against, [(1 - p) / p], are a finite
    double. *)
Theorem sigmoid_logit (p : R) :
  in_range p → (1 - p) / p <= DBL_MAX →
  ∃ l, logit p = Logged [] (Ok l) ∧ sigmoid l = Ok p.
Proof.
  intros Hp Hfin. exists (ln (p / (1 - p))).
  split; [by apply logit_in_range | by apply sigmoid_ln_odds].
Qed.

Lemma quarter_odds_finite : (1 - 1 / 4) / (1 / 4) <= DBL_MAX.
Proof.
  replace ((1 - 1 / 4) / (1 / 4)) with 3 by field.
  destruct DBL_MAX_bounds as [Hlo _].
  apply Rle_trans with (IZR (2 ^ 1023)); [| done].
  apply IZR_le. vm_compute. discriminate.
Qed.

Lemma quarter_in_range : in_range (1 / 4).
Proof. unfold in_range. lra. Qed.

Lemma sigmoid_logit_witness :
  ∃ l, logit (1 / 4) = Logged [] (Ok l) ∧ sigmoid l = Ok (1 / 4).
Proof. exact (sigmoid_logit (1 / 4) quarter_in_range quarter_odds_finite). Defined.

(** Two probabilities in range that sum to one have opposite log-odds,
    each computed without a log record. *)
Theorem logit_complement (p q : R) :
  in_range p → in_range q → p + q = 1 →
  ∃ l, logit p = Logged [] (Ok l) ∧ logit q = Logged [] (Ok (- l)).
Proof.
  intros Hp Hq Hsum. pose proof Hp as [H0 H1]. exists (ln (p / (1 - p))).
  split; [by apply logit_in_range |].
  rewrite (logit_in_range q Hq). do 2 f_equal.
  replace q with (1 - p) by lra.
  replace ((1 - p) / (1 - (1 - p))) with (/ (p / (1 - p))) by (field; lra).
  apply ln_Rinv. apply Rdiv_lt_0_compat; lra.
Qed.

Lemma three_quarters_in_range : in_range (3 / 4).
Proof. unfold in_range. lra. Qed.

Lemma logit_complement_witness :
  ∃ l, logit (1 / 4) = Logged [] (Ok l) ∧ logit (3 / 4) = Logged [] (Ok (- l)).
Proof.
  apply (logit_complement (1 / 4) (3 / 4) quarter_in_range three_quarters_in_range).
  lra.
Defined.

(** The bias of a base rate in range is computed without a log record,
    and [sigmoid] maps it back to the base rate. *)
Theorem sigmoid_bias_for_base_rate (r : R) :
  in_range r → (1 - r) / r <= DBL_MAX →
  ∃ b, bias_for_base_rate r = ([], Ok b) ∧ sigmoid b = Ok r.
Proof.
  intros Hr Hfin. exists (ln (r / (1 - r))). split; [| by apply sigmoid_ln_odds].
  pose proof (bias_for_base_rate_outcome r) as Hout.
  rewrite (logit_in_range r Hr) in Hout. cbn in Hout.
  unfold bias_for_base_rate in *. cbn [snd] in Hout. rewrite Hout.
  destruct Hr. by destruct (decide (0 < r ∧ r < 1)) as [_ | []].
Qed.

Lemma sigmoid_bias_for_base_rate_witness :
  ∃ b, bias_for_base_rate (1 / 4) = ([], Ok b) ∧ sigmoid b = Ok (1 / 4).
Proof.
  exact (sigmoid_bias_for_base_rate (1 / 4) quarter_in_range quarter_odds_finite).
Defined.

(** On a finite base rate out of range the guard of
    [bias_for_base_rate] logs and the arithmetic raises,
    [ZeroDivisionError] at 1 and [ValueError] elsewhere. *)
Lemma bias_for_base_rate_out_of_range (r : R) :
  ¬ in_range r →
  bias_for_base_rate r
  = ([BaseRateOutOfRange],
     Raise (if decide (r = 1) then ZeroDivisionError else ValueError_math_domain)).
Proof.
  intros Hr. pose proof (bias_for_base_rate_outcome r) as Hout.
  rewrite (logit_out_of_range r Hr) in Hout. cbn in Hout.
  unfold bias_for_base_rate in *. cbn [snd] in Hout. rewrite Hout.
  destruct (decide (0 < r ∧ r < 1)) as [Hin | _]; [by destruct Hr | done].
Qed.

(** ** [load_weights] *)

Lemma example_in_range :
  Forall in_range (input_probabilities example_settings example_raw_probs).
Proof.
  unfold input_probabilities, example_raw_probs, raw_triples. cbn.
  repeat first [apply Forall_nil_2 | apply Forall_cons_2]; unfold in_range; lra.
Qed.

Lemma example_train :
  outcome (train_and_save_weights example_settings example_files)
  = Ok (written example_files example_bias example_weights, (example_bias, example_weights)).
Proof.
  by rewrite (train_in_range example_settings example_files example_raw_probs
                eq_refl example_in_range).
Qed.

Lemma train_Ok_written settings fs fs' bias weights :
  outcome (train_and_save_weights settings fs) = Ok (fs', (bias, weights)) →
  fs' = written fs bias weights.
Proof.
  intros Hrun. destruct (raw_probs_json fs) as [raw |] eqn:Hraw.
  - destruct (decide (Forall in_range (input_probabilities settings raw))) as [Hall | Hbad].
    + rewrite (train_in_range settings fs raw Hraw Hall) in Hrun. cbn in Hrun.
      by injection Hrun as <- <- <-.
    + destruct (train_out_of_range_raises settings fs raw Hraw Hbad) as (e & Hfail).
      rewrite Hfail in Hrun. done.
  - unfold train_and_save_weights in Hrun. rewrite Hraw in Hrun. done.
Qed.

Lemma train_missing_raw_probs settings fs :
  raw_probs_json fs = None →
  train_and_save_weights settings fs = Logged [MissingRawProbs] (Raise FileNotFoundError).
Proof. intros Hraw. unfold train_and_save_weights. by rewrite Hraw. Qed.

Lemma outcome_after_info {A} (r : log_record) (m : logged A) :
  outcome (_ ← logger_info r; m) = outcome m.
Proof. done. Qed.

(** After [load_weights] has returned, [weights.json] holds the pair it
    returned and the other files are as they were; loading again with
    [BUILD_WEIGHTS] false returns the same pair, logs nothing and leaves
    the files alone. *)
Theorem load_weights_round_trip settings settings' fs fs' bias weights :
  outcome (load_weights settings fs) = Ok (fs', (bias, weights)) →
  build_weights settings' = false →
  weights_json fs' = Some (bias, weights)
  ∧ priors_json fs' = priors_json fs
  ∧ raw_probs_json fs' = raw_probs_json fs
  ∧ load_weights settings' fs' = Logged [] (Ok (fs', (bias, weights))).
Proof.
  intros Hrun Hno.
  assert (Hfs : weights_json fs' = Some (bias, weights)
                ∧ priors_json fs' = priors_json fs
                ∧ raw_probs_json fs' = raw_probs_json fs).
  { unfold load_weights in Hrun. destruct (build_weights settings).
    - by apply train_Ok_written in Hrun as ->.
    - destruct (weights_json fs) as [[b w] |] eqn:Hw.
      + cbn in Hrun. injection Hrun as <- <- <-. by rewrite Hw.
      + rewrite outcome_after_info in Hrun. by apply train_Ok_written in Hrun as ->. }
  destruct Hfs as (Hw & Hp & Hr). split_and!; try done.
  unfold load_weights. by rewrite Hno, Hw.
Qed.

Lemma load_weights_round_trip_witness :
  weights_json (written example_files example_bias example_weights)
  = Some (example_bias, example_weights)
  ∧ priors_json (written example_files example_bias example_weights)
    = priors_json example_files
  ∧ raw_probs_json (written example_files example_bias example_weights)
    = raw_probs_json example_files
  ∧ load_weights default_settings (written example_files example_bias example_weights)
    = Logged [] (Ok (written example_files example_bias example_weights,
                     (example_bias, example_weights))).
Proof.
  apply (load_weights_round_trip example_settings default_settings example_files).
  - exact example_train.
  - reflexivity.
Defined.

(** When the weights have to be derived, because [BUILD_WEIGHTS] is true
    or [weights.json] is missing or empty, and [raw_probs.json] does not
    exist, the existence check only logs and [load_weights] ends with the
    [FileNotFoundError] of [open]. *)
Theorem load_weights_missing_raw_probs settings fs :
  raw_probs_json fs = None →
  build_weights settings = true ∨ weights_json fs = None →
  outcome (load_weights settings fs) = Raise FileNotFoundError
  ∧ MissingRawProbs ∈ records (load_weights settings fs).
Proof.
  intros Hraw Hneeded. pose proof (train_missing_raw_probs settings fs Hraw) as Htrain.
  unfold load_weights. destruct (build_weights settings).
  - rewrite Htrain. split; [done | apply list_elem_of_here].
  - destruct Hneeded as [? | Hw]; [done |]. rewrite Hw, Htrain.
    split; [done | apply list_elem_of_further, list_elem_of_here].
Qed.

Lemma load_weights_missing_raw_probs_witness :
  outcome (load_weights default_settings no_files) = Raise FileNotFoundError
  ∧ MissingRawProbs ∈ records (load_weights default_settings no_files).
Proof.
  apply (load_weights_missing_raw_probs default_settings no_files).
  - reflexivity.
  - right. reflexivity.
Defined.

(** ** The weights that derivation yields *)

Lemma assign_weights_dom bias triples w :
  dom (assign_weights bias triples w)
  =@{gset string} dom w ∪ list_to_set (map (λ t, weight_key t.1.1 t.1.2) triples).
Proof.
  revert w. induction triples as [| [[f s] p] triples IH]; intros w.
  - cbn. by rewrite (right_id_L ∅ (∪)).
  - change (assign_weights bias ((f, s, p) :: triples) w)
      with (assign_weights bias triples (<[weight_key f s := ln (p / (1 - p)) - bias]> w)).
    rewrite IH, dom_insert_L. cbn [map fst snd list_to_set].
    rewrite (comm_L (∪) {[weight_key f s]} (dom w)). by rewrite (assoc_L (∪)).
Qed.

(** Derivation yields a weight for the keys ["feature:state"] of the
    pairs of [raw_probs.json] and for no other key. *)
Theorem derived_weights_keys settings fs fs' raw bias WEIGHTS key :
  raw_probs_json fs = Some raw →
  outcome (train_and_save_weights settings fs) = Ok (fs', (bias, WEIGHTS)) →
  is_Some (WEIGHTS !! key)
  ↔ ∃ feature sts state p,
      (feature, sts) ∈ raw ∧ (state, p) ∈ sts ∧ key = weight_key feature state.
Proof.
  intros Hraw Hrun. destruct (train_Ok_inv _ _ _ _ _ _ Hraw Hrun) as (_ & _ & ->).
  rewrite <- elem_of_dom, assign_weights_dom, dom_empty_L, elem_of_union,
    elem_of_list_to_set, list_elem_of_fmap.
  split.
  - intros [Hin | ([[feature state] p] & -> & Hin)]; [by apply elem_of_empty in Hin |].
    apply elem_of_raw_triples in Hin as (sts & Hf & Hs).
    by exists feature, sts, state, p.
  - intros (feature & sts & state & p & Hf & Hs & ->). right.
    exists (feature, state, p). split; [done |].
    apply elem_of_raw_triples. by exists sts.
Qed.

Lemma derived_weights_keys_witness :
  is_Some (example_weights !! "Porting:Old")
  ↔ ∃ feature sts state p,
      (feature, sts) ∈ example_raw_probs ∧ (state, p) ∈ sts
      ∧ "Porting:Old" = weight_key feature state.
Proof.
  apply (derived_weights_keys example_settings example_files
           (written example_files example_bias example_weights) example_raw_probs
           example_bias example_weights "Porting:Old").
  - reflexivity.
  - exact example_train.
Defined.

Lemma ln_odds_strict (p q : R) :
  in_range p → in_range q → p < q → ln (p / (1 - p)) < ln (q / (1 - q)).
Proof.
  intros [Hp0 Hp1] [Hq0 Hq1] Hpq.
  apply ln_increasing; [apply Rdiv_lt_0_compat; lra |].
  apply (Rmult_lt_reg_r ((1 - p) * (1 - q))); [apply Rmult_lt_0_compat; lra |].
  replace (p / (1 - p) * ((1 - p) * (1 - q))) with (p * (1 - q)) by (field; lra).
  replace (q / (1 - q) * ((1 - p) * (1 - q))) with (q * (1 - p)) by (field; lra).
  nra.
Qed.

Lemma derived_in_range settings raw feature sts state p :
  Forall in_range (input_probabilities settings raw) →
  (feature, sts) ∈ raw → (state, p) ∈ sts →
  in_range (base_fraud_rate settings) ∧ in_range p.
Proof.
  intros [Hr Hall]%Forall_cons Hf Hs. split; [done |].
  rewrite Forall_fmap, Forall_forall in Hall.
  apply (Hall (feature, state, p)). apply elem_of_raw_triples. by exists sts.
Qed.

(** The sign of a derived weight follows the comparison of the raw
    probability of the state with the base rate: the weight is not
    negative when the raw probability is at least the base rate and not
    positive when it is at most the base rate; hence it is zero when the
    two are equal, positive only above the base rate and negative only
    below it. *)
Theorem derived_weight_sign settings fs fs' raw bias WEIGHTS feature sts state p :
  raw_probs_json fs = Some raw →
  outcome (train_and_save_weights settings fs) = Ok (fs', (bias, WEIGHTS)) →
  NoDup (map (λ t, weight_key t.1.1 t.1.2) (raw_triples raw)) →
  (feature, sts) ∈ raw → (state, p) ∈ sts →
  ∃ w, WEIGHTS !! weight_key feature state = Some w
       ∧ (base_fraud_rate settings <= p → 0 <= w)
       ∧ (p <= base_fraud_rate settings → w <= 0)
       ∧ (p = base_fraud_rate settings → w = 0)
       ∧ (0 < w → base_fraud_rate settings < p)
       ∧ (w < 0 → p < base_fraud_rate settings).
Proof.
  intros Hraw Hrun Hnd Hf Hs.
  destruct (train_Ok_inv _ _ _ _ _ _ Hraw Hrun) as (Hrange & -> & ->).
  destruct (derived_in_range _ _ _ _ _ _ Hrange Hf Hs) as [Hr Hp].
  eexists. split.
  { apply assign_weights_lookup_NoDup; [done |]. apply elem_of_raw_triples. by exists sts. }
  destruct (Rtotal_order p (base_fraud_rate settings)) as [Hlt | [-> | Hgt]].
  - pose proof (ln_odds_strict _ _ Hp Hr Hlt). split_and!; intros; lra.
  - split_and!; intros; lra.
  - pose proof (ln_odds_strict _ _ Hr Hp Hgt). split_and!; intros; lra.
Qed.

Lemma derived_weight_sign_witness :
  ∃ w, example_weights !! weight_key "Porting" "Recent" = Some w
       ∧ (base_fraud_rate example_settings <= 25 / 100 → 0 <= w)
       ∧ (25 / 100 <= base_fraud_rate example_settings → w <= 0)
       ∧ (25 / 100 = base_fraud_rate example_settings → w = 0)
       ∧ (0 < w → base_fraud_rate example_settings < 25 / 100)
       ∧ (w < 0 → 25 / 100 < base_fraud_rate example_settings).
Proof.
  apply (derived_weight_sign example_settings example_files
           (written example_files example_bias example_weights) example_raw_probs
           example_bias example_weights "Porting"
           [("Old", 1 / 100); ("Moderate", 5 / 100); ("Recent", 25 / 100)]).
  - reflexivity.
  - exact example_train.
  - exact example_keys_NoDup.
  - apply list_elem_of_here.
  - repeat first [apply list_elem_of_here | apply list_elem_of_further].
Defined.

(** ** The Fraud CPT under derived weights *)






(** ** Errors of the priors file *)

Lemma json_get_Raise {V} (d : json_object V) (k : string) (e : exn) :
  json_get d k = Raise e → e = KeyError k ∧ k ∉ d.*1.
Proof.
  induction d as [| [k' v] d IH]; cbn.
  - intros [= <-]. split; [done | apply not_elem_of_nil].
  - destruct (decide (k' = k)) as [-> | Hne]; [done |].
    intros [-> Hout]%IH. split; [done |].
    apply not_elem_of_cons. split; [done | exact Hout].
Qed.

Lemma json_get_Ok {V} (d : json_object V) (k : string) (v : V) :
  json_get d k = Ok v → k ∈ d.*1.
Proof.
  induction d as [| [k' v'] d IH]; cbn; [done |].
  destruct (decide (k' = k)) as [-> | Hne]; [intros _; apply list_elem_of_here |].
  intros Hget. apply list_elem_of_further. by apply IH.
Qed.

Lemma assemble_build_error fs bias WEIGHTS e :
  build_fraud_cpd fs bias WEIGHTS = Raise e → assemble fs bias WEIGHTS = Raise e.
Proof. intros Hbuild. unfold assemble. by rewrite Hbuild. Qed.

(** Without [priors.json] nothing of the model is built: loading the
    priors, building the prior CPDs, building the Fraud CPT and
    assembling the network all end with [FileNotFoundError], and so does
    starting the service when no pickled model exists. *)
Theorem missing_priors_file bias WEIGHTS d :
  priors_json (model_files d) = None →
  load_priors (model_files d) = Raise FileNotFoundError
  ∧ build_priors (model_files d) = Raise FileNotFoundError
  ∧ build_fraud_cpd (model_files d) bias WEIGHTS = Raise FileNotFoundError
  ∧ assemble (model_files d) bias WEIGHTS = Raise FileNotFoundError
  ∧ (prod_model_pkl d = None →
     FraudService_init bias WEIGHTS d = Raise FileNotFoundError).
Proof.
  intros Hnone.
  assert (Hload : load_priors (model_files d) = Raise FileNotFoundError)
    by (unfold load_priors; by rewrite Hnone).
  assert (Hbuild : build_fraud_cpd (model_files d) bias WEIGHTS = Raise FileNotFoundError)
    by (unfold build_fraud_cpd; by rewrite Hload).
  pose proof (assemble_build_error _ _ _ _ Hbuild) as Hasm.
  split_and!; [done | unfold build_priors; by rewrite Hload | done | done |].
  intros Hpkl. unfold FraudService_init. by rewrite Hpkl, Hasm.
Qed.

Lemma missing_priors_file_witness :
  load_priors no_files = Raise FileNotFoundError
  ∧ build_priors no_files = Raise FileNotFoundError
  ∧ build_fraud_cpd no_files 0 ∅ = Raise FileNotFoundError
  ∧ assemble no_files 0 ∅ = Raise FileNotFoundError
  ∧ (prod_model_pkl (fresh_disk no_files) = None →
     FraudService_init 0 ∅ (fresh_disk no_files) = Raise FileNotFoundError).
Proof. apply (missing_priors_file 0 ∅ (fresh_disk no_files)). reflexivity. Defined.

(** When [priors.json] lacks one of the five evidence nodes, building
    the Fraud CPT ends with the [KeyError] of the first node that is
    missing, in the order Porting, DarkWeb, StateMatch, ProxyFlag,
    MAID_NightDistance, whatever the weights are, and assembling the
    network ends the same way. *)
Theorem build_fraud_cpd_missing_node fs priors bias WEIGHTS node :
  priors_json fs = Some priors →
  node ∈ EVIDENCE_NODES → node ∉ priors.*1 →
  ∃ i first,
    EVIDENCE_NODES !! i = Some first
    ∧ (first ∉ priors.*1)
    ∧ (∀ j earlier, (j < i)%nat → EVIDENCE_NODES !! j = Some earlier →
         earlier ∈ priors.*1)
    ∧ build_fraud_cpd fs bias WEIGHTS = Raise (KeyError first)
    ∧ assemble fs bias WEIGHTS = Raise (KeyError first).
Proof.
  intros Hfile Hnode Hout.
  assert (Hgoal : ∃ i first,
    EVIDENCE_NODES !! i = Some first
    ∧ (first ∉ priors.*1)
    ∧ (∀ j earlier, (j < i)%nat → EVIDENCE_NODES !! j = Some earlier →
         earlier ∈ priors.*1)
    ∧ build_fraud_cpd fs bias WEIGHTS = Raise (KeyError first)).
  { unfold build_fraud_cpd, load_priors. rewrite Hfile. cbn [mbind result_bind].
    destruct (json_get priors "Porting") as [porting | e] eqn:H1.
    2:{ apply json_get_Raise in H1 as [-> H1]. exists 0%nat, "Porting".
        split_and!; [done | done | by intros; lia | done]. }
    apply json_get_Ok in H1.
    destruct (json_get priors "DarkWeb") as [darkweb | e] eqn:H2.
    2:{ apply json_get_Raise in H2 as [-> H2]. exists 1%nat, "DarkWeb".
        split_and!; [done | done | | done].
        intros j earlier Hj Hlook. unfold EVIDENCE_NODES in Hlook.
        do 5 (destruct j as [| j]; [first [lia | by injection Hlook as <-] |]). lia. }
    apply json_get_Ok in H2.
    destruct (json_get priors "StateMatch") as [statematch | e] eqn:H3.
    2:{ apply json_get_Raise in H3 as [-> H3]. exists 2%nat, "StateMatch".
        split_and!; [done | done | | done].
        intros j earlier Hj Hlook. unfold EVIDENCE_NODES in Hlook.
        do 5 (destruct j as [| j]; [first [lia | by injection Hlook as <-] |]). lia. }
    apply json_get_Ok in H3.
    destruct (json_get priors "ProxyFlag") as [proxy | e] eqn:H4.
    2:{ apply json_get_Raise in H4 as [-> H4]. exists 3%nat, "ProxyFlag".
        split_and!; [done | done | | done].
        intros j earlier Hj Hlook. unfold EVIDENCE_NODES in Hlook.
        do 5 (destruct j as [| j]; [first [lia | by injection Hlook as <-] |]). lia. }
    apply json_get_Ok in H4.
    destruct (json_get priors "MAID_NightDistance") as [maid | e] eqn:H5.
    2:{ apply json_get_Raise in H5 as [-> H5]. exists 4%nat, "MAID_NightDistance".
        split_and!; [done | done | | done].
        intros j earlier Hj Hlook. unfold EVIDENCE_NODES in Hlook.
        do 5 (destruct j as [| j]; [first [lia | by injection Hlook as <-] |]). lia. }
    apply json_get_Ok in H5.
    exfalso. unfold EVIDENCE_NODES in Hnode.
    repeat (apply elem_of_cons in Hnode as [-> | Hnode]; [done |]).
    by apply elem_of_nil in Hnode. }
  destruct Hgoal as (i & first & Hi & Hfirst & Hearlier & Hbuild).
  exists i, first. split_and!; [done | done | done | done |].
  by apply assemble_build_error.
Qed.

Lemma build_fraud_cpd_missing_node_witness :
  ∃ i first,
    EVIDENCE_NODES !! i = Some first
    ∧ (first ∉ priors_without_ProxyFlag.*1)
    ∧ (∀ j earlier, (j < i)%nat → EVIDENCE_NODES !! j = Some earlier →
         earlier ∈ priors_without_ProxyFlag.*1)
    ∧ build_fraud_cpd
        {| priors_json := Some priors_without_ProxyFlag; raw_probs_json := None;
           weights_json := None |} 0 ∅
      = Raise (KeyError first)
    ∧ assemble
        {| priors_json := Some priors_without_ProxyFlag; raw_probs_json := None;
           weights_json := None |} 0 ∅
      = Raise (KeyError first).
Proof.
  apply (build_fraud_cpd_missing_node
           {| priors_json := Some priors_without_ProxyFlag; raw_probs_json := None;
              weights_json := None |}
           priors_without_ProxyFlag 0 ∅ "ProxyFlag").
  - reflexivity.
  - repeat first [apply list_elem_of_here | apply list_elem_of_further].
  - refine (bool_decide_unpack _ _). vm_compute. exact I.
Defined.

(** ** The service and the pickled model *)

(** Once the service has started, the model file holds the network the
    service scores with and the other files are as they were; every later
    start loads that network and leaves the disk alone, whatever bias and
    weights are then in force: the model is not rebuilt while the model
    file exists. *)
Theorem FraudService_init_persists bias WEIGHTS d d' bn :
  FraudService_init bias WEIGHTS d = Ok (d', bn) →
  prod_model_pkl d' = Some bn
  ∧ model_files d' = model_files d
  ∧ ∀ bias' WEIGHTS', FraudService_init bias' WEIGHTS' d' = Ok (d', bn).
Proof.
  intros Hinit.
  assert (Hpkl : prod_model_pkl d' = Some bn ∧ model_files d' = model_files d).
  { unfold FraudService_init, FraudBN_load in Hinit.
    destruct (prod_model_pkl d) as [stored |] eqn:Hd.
    - cbn in Hinit. injection Hinit as <- <-. done.
    - destruct (assemble (model_files d) bias WEIGHTS) as [model |]; [| done].
      cbn in Hinit. injection Hinit as <- <-. done. }
  destruct Hpkl as [Hpkl Hfiles]. split_and!; [done | done |].
  intros bias' WEIGHTS'. unfold FraudService_init, FraudBN_load. by rewrite Hpkl.
Qed.

Lemma FraudService_init_persists_witness :
  ∃ bn,
    assemble example_files example_bias example_weights = Ok bn
    ∧ prod_model_pkl (FraudBN_save (fresh_disk example_files) bn) = Some bn
    ∧ model_files (FraudBN_save (fresh_disk example_files) bn) = example_files
    ∧ ∀ bias' WEIGHTS',
        FraudService_init bias' WEIGHTS' (FraudBN_save (fresh_disk example_files) bn)
        = Ok (FraudBN_save (fresh_disk example_files) bn, bn).
Proof.
  destruct example_assembles as [bn Hasm]. exists bn. split; [exact Hasm |].
  apply (FraudService_init_persists example_bias example_weights
           (fresh_disk example_files)).
  unfold FraudService_init. cbn [prod_model_pkl model_files fresh_disk]. by rewrite Hasm.
Defined.

(** ** Derived weights and the keys the Fraud CPT needs *)

Lemma derived_weight_exists raw bias feature rs state :
  (feature, rs) ∈ raw → state ∈ rs.*1 →
  is_Some (assign_weights bias (raw_triples raw) ∅ !! weight_key feature state).
Proof.
  intros Hf ([st p] & -> & Hs)%list_elem_of_fmap. cbn.
  apply elem_of_dom. rewrite assign_weights_dom.
  apply elem_of_union_r, elem_of_list_to_set, list_elem_of_fmap.
  exists (feature, st, p). split; [done |].
  apply elem_of_raw_triples. by exists rs.
Qed.

Lemma sigmoid_Ok_finite (x p : R) : sigmoid x = Ok p → exp (- x) <= DBL_MAX.
Proof.
  intros Hs. destruct (decide (exp (- x) <= DBL_MAX)) as [Hle | Hgt]; [done |].
  rewrite sigmoid_overflow in Hs by lra. done.
Qed.

(** When [raw_probs.json] lists, for each of the five evidence nodes,
    every state that [priors.json] declares for it, the derived weights
    hold every key the Fraud CPT looks up, and building the Fraud CPT
    does not end with a [LookupError]. *)
Theorem derived_weights_suffice settings wfs wfs' raw bias WEIGHTS fs ps ds ss xs ms :
  raw_probs_json wfs = Some raw →
  outcome (train_and_save_weights settings wfs) = Ok (wfs', (bias, WEIGHTS)) →
  parent_states fs "Porting" = Ok ps →
  parent_states fs "DarkWeb" = Ok ds →
  parent_states fs "StateMatch" = Ok ss →
  parent_states fs "ProxyFlag" = Ok xs →
  parent_states fs "MAID_NightDistance" = Ok ms →
  (∀ node sts state, parent_states fs node = Ok sts → state ∈ sts →
     node ∈ EVIDENCE_NODES → ∃ rs, (node, rs) ∈ raw ∧ state ∈ rs.*1) →
  (∀ key, key ∈ required_keys ps ds ss xs ms → is_Some (WEIGHTS !! key))
  ∧ (∀ e, build_fraud_cpd fs bias WEIGHTS = Raise e → ¬ is_LookupError e).
Proof.
  intros Hraw Hrun Hps Hds Hss Hxs Hms Hcover.
  destruct (train_Ok_inv _ _ _ _ _ _ Hraw Hrun) as (_ & _ & ->).
  assert (Hkey : ∀ node sts state, parent_states fs node = Ok sts → state ∈ sts →
            node ∈ EVIDENCE_NODES →
            is_Some (assign_weights bias (raw_triples raw) ∅ !! weight_key node state)).
  { intros node sts state Hnode Hstate Hin.
    destruct (Hcover node sts state Hnode Hstate Hin) as (rs & Hf & Hs).
    by apply (derived_weight_exists raw bias node rs). }
  assert (Hkeys : ∀ key, key ∈ required_keys ps ds ss xs ms →
            is_Some (assign_weights bias (raw_triples raw) ∅ !! key)).
  { intros key ([[[[p d] s] x] m] & Hk & Ht)%list_elem_of_bind.
    apply elem_of_product5 in Ht as (Hp & Hd & Hs & Hx & Hm).
    unfold tuple_keys in Hk. unfold EVIDENCE_NODES in Hkey.
    apply elem_of_cons in Hk as [-> | Hk].
    { apply (Hkey "Porting" ps p Hps Hp).
      repeat first [apply list_elem_of_here | apply list_elem_of_further]. }
    apply elem_of_cons in Hk as [-> | Hk].
    { apply (Hkey "DarkWeb" ds d Hds Hd).
      repeat first [apply list_elem_of_here | apply list_elem_of_further]. }
    apply elem_of_cons in Hk as [-> | Hk].
    { apply (Hkey "StateMatch" ss s Hss Hs).
      repeat first [apply list_elem_of_here | apply list_elem_of_further]. }
    apply elem_of_cons in Hk as [-> | Hk].
    { apply (Hkey "ProxyFlag" xs x Hxs Hx).
      repeat first [apply list_elem_of_here | apply list_elem_of_further]. }
    apply elem_of_cons in Hk as [-> | Hk].
    { apply (Hkey "MAID_NightDistance" ms m Hms Hm).
      repeat first [apply list_elem_of_here | apply list_elem_of_further]. }
    by apply elem_of_nil in Hk. }
  split; [exact Hkeys |].
  intros e Hbuild.
  rewrite (build_fraud_cpd_unfold _ _ _ _ _ _ _ _ Hps Hds Hss Hxs Hms) in Hbuild.
  destruct (for_append (fraud_probability bias (assign_weights bias (raw_triples raw) ∅))
              (product5 ps ds ss xs ms)) as [p_fraud_yes | e'] eqn:Hloop.
  - cbn in Hbuild. unfold new_TabularCPD in Hbuild.
    case_decide; [done |]. injection Hbuild as <-. by intros [].
  - cbn in Hbuild. injection Hbuild as ->.
    apply for_append_Raise in Hloop as (tuple & Ht & Hraise).
    apply fraud_probability_Raise_inv in Hraise as [(k & Hk & Hnone & ->) | ->];
      [| by intros []].
    exfalso. destruct (Hkeys k) as [w Hw]; [| congruence].
    apply list_elem_of_bind. by exists tuple.
Qed.

Lemma example_parent_states node sts state :
  parent_states example_files node = Ok sts → state ∈ sts →
  node ∈ EVIDENCE_NODES → ∃ rs, (node, rs) ∈ example_raw_probs ∧ state ∈ rs.*1.
Proof.
  intros Hnode Hstate Hin. unfold EVIDENCE_NODES in Hin.
  repeat (apply elem_of_cons in Hin as [-> | Hin];
    [cbn in Hnode; injection Hnode as <-; eexists; split;
       [repeat first [apply list_elem_of_here | apply list_elem_of_further]
       | exact Hstate] |]).
  by apply elem_of_nil in Hin.
Qed.

Lemma derived_weights_suffice_witness :
  (∀ key, key ∈ required_keys ["Old"; "Moderate"; "Recent"]
                  ["None"; "Low"; "Medium"; "High"] ["Yes"; "No"] ["No"; "Yes"]
                  ["Near"; "Moderate"; "Far"; "Distant"] →
     is_Some (example_weights !! key))
  ∧ (∀ e, build_fraud_cpd example_files example_bias example_weights = Raise e →
       ¬ is_LookupError e).
Proof.
  apply (derived_weights_suffice example_settings example_files
           (written example_files example_bias example_weights) example_raw_probs
           example_bias example_weights example_files).
  - reflexivity.
  - exact example_train.
  - reflexivity.
  - reflexivity.
  - reflexivity.
  - reflexivity.
  - reflexivity.
  - exact example_parent_states.
Defined.

(** ** Monotonicity of the Fraud CPT *)

(** With derived weights, replacing the state of one parent by a state of
    the same feature whose raw probability is at least as large does not
    lower the entry of the Fraud CPT: where the entry for the first
    combination is returned, the entry for the second is returned too and
    is at least as large. *)
Theorem fraud_probability_monotone settings fs fs' raw bias WEIGHTS
    p d s x m p' d' s' x' m' i feature sts benign suspicious p_b p_s q :
  raw_probs_json fs = Some raw →
  outcome (train_and_save_weights settings fs) = Ok (fs', (bias, WEIGHTS)) →
  NoDup (map (λ t, weight_key t.1.1 t.1.2) (raw_triples raw)) →
  EVIDENCE_NODES !! i = Some feature →
  (feature, sts) ∈ raw → (benign, p_b) ∈ sts → (suspicious, p_s) ∈ sts →
  p_b <= p_s →
  [p; d; s; x; m] !! i = Some benign →
  [p'; d'; s'; x'; m'] = <[i := suspicious]> [p; d; s; x; m] →
  fraud_probability bias WEIGHTS (p, d, s, x, m) = Ok q →
  ∃ q', fraud_probability bias WEIGHTS (p', d', s', x', m') = Ok q' ∧ q <= q'.
Proof.
  intros Hraw Hrun Hnd Hi Hf Hb Hs Hle Hbenign Hlist Hq.
  destruct (train_Ok_inv _ _ _ _ _ _ Hraw Hrun) as (Hrange & _ & ->).
  destruct (derived_weights_mono settings raw bias feature sts benign suspicious p_b p_s
              Hrange Hnd Hf Hb Hs Hle) as (w_b & w_s & Hwb & Hws & Hw).
  apply fraud_probability_Ok_inv in Hq
    as (w_p & w_d & w_ss & w_x & w_m & Hp & Hd & Hss & Hx & Hm & Hq).
  pose proof (sigmoid_Ok_finite _ _ Hq) as Hfin.
  assert (Hup : ∀ y, bias + w_p + w_d + w_ss + w_x + w_m <= y →
            ∃ q', sigmoid y = Ok q' ∧ q <= q').
  { intros y Hy. exists (1 / (1 + exp (- y))).
    assert (Hy' : sigmoid y = Ok (1 / (1 + exp (- y)))).
    { apply sigmoid_finite.
      apply Rle_trans with (exp (- (bias + w_p + w_d + w_ss + w_x + w_m))); [| done].
      apply exp_le_mono. lra. }
    split; [done |]. by apply (sigmoid_mono _ y _ _ Hy Hq). }
  unfold EVIDENCE_NODES in Hi.
  destruct i as [| [| [| [| [| i]]]]]; [.. | done];
    cbn in Hi, Hbenign, Hlist;
    injection Hi as <-; injection Hbenign as ->;
    injection Hlist as -> -> -> -> ->.
  - change (weight_key "Porting" benign) with ("Porting:" +:+ benign) in Hwb.
    rewrite Hwb in Hp. injection Hp as <-.
    rewrite (fraud_probability_present _ _ _ _ _ _ _ _ _ _ _ _ Hws Hd Hss Hx Hm).
    apply Hup. lra.
  - change (weight_key "DarkWeb" benign) with ("DarkWeb:" +:+ benign) in Hwb.
    rewrite Hwb in Hd. injection Hd as <-.
    rewrite (fraud_probability_present _ _ _ _ _ _ _ _ _ _ _ _ Hp Hws Hss Hx Hm).
    apply Hup. lra.
  - change (weight_key "StateMatch" benign) with ("StateMatch:" +:+ benign) in Hwb.
    rewrite Hwb in Hss. injection Hss as <-.
    rewrite (fraud_probability_present _ _ _ _ _ _ _ _ _ _ _ _ Hp Hd Hws Hx Hm).
    apply Hup. lra.
  - change (weight_key "ProxyFlag" benign) with ("ProxyFlag:" +:+ benign) in Hwb.
    rewrite Hwb in Hx. injection Hx as <-.
    rewrite (fraud_probability_present _ _ _ _ _ _ _ _ _ _ _ _ Hp Hd Hss Hws Hm).
    apply Hup. lra.
  - change (weight_key "MAID_NightDistance" benign)
      with ("MAID_NightDistance:" +:+ benign) in Hwb.
    rewrite Hwb in Hm. injection Hm as <-.
    rewrite (fraud_probability_present _ _ _ _ _ _ _ _ _ _ _ _ Hp Hd Hss Hx Hws).
    apply Hup. lra.
Qed.

Lemma fraud_probability_monotone_witness :
  ∃ q q',
    fraud_probability example_bias example_weights ("Old", "None", "Yes", "No", "Near")
    = Ok q
    ∧ fraud_probability example_bias example_weights
        ("Recent", "None", "Yes", "No", "Near") = Ok q'
    ∧ q <= q'.
Proof.
  assert (Hq : ∃ q, fraud_probability example_bias example_weights
                      ("Old", "None", "Yes", "No", "Near") = Ok q).
  { pose proof example_bias_bounds as Hbias.
    assert (Hcover : ∀ i feature sts, example_raw_probs !! i = Some (feature, sts) →
              weights_cover example_weights (-98) feature sts.*1).
    { intros i feature sts Hi. apply example_weights_cover.
      apply list_elem_of_lookup. by exists i. }
    apply (fraud_probability_returns example_bias example_weights (-98)
             ["Old"; "Moderate"; "Recent"] ["None"; "Low"; "Medium"; "High"]
             ["Yes"; "No"] ["No"; "Yes"] ["Near"; "Moderate"; "Far"; "Distant"]).
    - exact (Hcover 0%nat _ _ eq_refl).
    - exact (Hcover 1%nat _ _ eq_refl).
    - exact (Hcover 2%nat _ _ eq_refl).
    - exact (Hcover 3%nat _ _ eq_refl).
    - exact (Hcover 4%nat _ _ eq_refl).
    - lra.
    - apply elem_of_product5.
      split_and!; repeat first [apply list_elem_of_here | apply list_elem_of_further]. }
  destruct Hq as [q Hq]. exists q.
  destruct (fraud_probability_monotone example_settings example_files
              (written example_files example_bias example_weights) example_raw_probs
              example_bias example_weights
              "Old" "None" "Yes" "No" "Near" "Recent" "None" "Yes" "No" "Near"
              0%nat "Porting"
              [("Old", 1 / 100); ("Moderate", 5 / 100); ("Recent", 25 / 100)]
              "Old" "Recent" (1 / 100) (25 / 100) q) as (q' & Hq' & Hle).
  - reflexivity.
  - exact example_train.
  - exact example_keys_NoDup.
  - reflexivity.
  - apply list_elem_of_here.
  - apply list_elem_of_here.
  - repeat first [apply list_elem_of_here | apply list_elem_of_further].
  - lra.
  - reflexivity.
  - reflexivity.
  - exact Hq.
  - exists q'. split; [exact Hq | split; [exact Hq' | exact Hle]].
Defined.

(** ** The functions on doubles that are not finite *)

(** On finite doubles the functions are those of the first part. *)
Lemma sigmoid_float_Finite (x : R) : sigmoid_float (Finite x) = Finite <$> sigmoid x.
Proof.
  unfold sigmoid_float, sigmoid. cbn [float_neg math_exp_float].
  destruct (math_exp (- x)) as [e |]; [| done]. cbn.
  unfold truediv. by destruct (decide (1 + e = 0)).
Qed.

Lemma logit_float_Finite (p : R) :
  logit_float (Finite p)
  = (if decide (in_range p) then [] else [FloatOutOfRange (Finite p)],
     Finite <$> outcome (logit p)).
Proof.
  unfold logit_float, logit, in_range. cbn [float_sub float_truediv float_lt].
  unfold truediv. f_equal.
  destruct (decide (0 < p ∧ p < 1)); cbn;
    (destruct (decide (1 - p = 0)); [done |]); cbn;
    by destruct (math_log (p / (1 - p))).
Qed.

Lemma logit_float_in_range (p : R) :
  in_range p → logit_float (Finite p) = ([], Ok (Finite (ln (p / (1 - p))))).
Proof.
  intros Hp. rewrite logit_float_Finite, (logit_in_range p Hp).
  by rewrite decide_True by exact Hp.
Qed.

Lemma logit_float_out_of_range (p : R) :
  ¬ in_range p →
  logit_float (Finite p) = ([FloatOutOfRange (Finite p)], Raise (logit_exn p)).
Proof.
  intros Hp. rewrite logit_float_Finite, (logit_out_of_range p Hp).
  by rewrite decide_False by exact Hp.
Qed.

Lemma bias_for_base_rate_float_Finite (r : R) :
  bias_for_base_rate_float (Finite r)
  = ((bias_for_base_rate r).1, Finite <$> (bias_for_base_rate r).2).
Proof.
  unfold bias_for_base_rate_float, bias_for_base_rate.
  cbn [fst snd float_sub float_truediv float_lt]. unfold truediv. f_equal.
  destruct (decide (1 - r = 0)); [done |]. cbn.
  by destruct (math_log (r / (1 - r))).
Qed.

(** C3 (code_bug).  The claim: weight derivation fails whenever an input
    probability is not strictly between 0 and 1, and does not log and
    continue or return an undefined log-odds value.  The check under
    [# Validate input] in [logit] only logs.  With a base fraud rate that
    is not a number, and with a raw probability that is not a number,
    [train_and_save_weights] logs the probability, goes on, and returns
    and writes weights that are not numbers. *)
Theorem train_and_save_weights_nan :
  train_and_save_weights_float NaN (Some [("Porting", [("Recent", Finite (25 / 100))])])
  = ([FloatOutOfRange NaN; FloatWeightsWritten],
     Ok (NaN, <["Porting:Recent" := NaN]> ∅))
  ∧ train_and_save_weights_float (Finite (2 / 100)) (Some [("Porting", [("Recent", NaN)])])
    = ([FloatOutOfRange NaN; FloatWeightsWritten],
       Ok (Finite (ln (2 / 100 / (1 - 2 / 100))), <["Porting:Recent" := NaN]> ∅)).
Proof.
  assert (H25 : in_range (25 / 100)) by (unfold in_range; lra).
  assert (H2 : in_range (2 / 100)) by (unfold in_range; lra).
  split.
  - unfold train_and_save_weights_float, for_features_float, for_states_float, and_then.
    rewrite (logit_float_in_range _ H25). reflexivity.
  - unfold train_and_save_weights_float, for_features_float, for_states_float, and_then.
    rewrite (logit_float_in_range _ H2). reflexivity.
Qed.

(** The guard of [bias_for_base_rate] only logs: for a base rate that is
    not strictly between 0 and 1 the call logs once and goes on into the
    arithmetic.  A finite rate makes the arithmetic raise,
    [ZeroDivisionError] at 1 and [ValueError] elsewhere; a rate that is
    not a number or is infinite comes back as not-a-number. *)
Theorem bias_for_base_rate_float_out_of_range (r : float) :
  ¬ (float_lt (Finite 0) r ∧ float_lt r (Finite 1)) →
  bias_for_base_rate_float r
  = ([BaseRateOutOfRange],
     match r with
     | Finite x =>
         Raise (if decide (x = 1) then ZeroDivisionError else ValueError_math_domain)
     | Infinity _ | NaN => Ok NaN
     end).
Proof.
  intros Hr. destruct r as [x | negative |].
  - rewrite bias_for_base_rate_float_Finite.
    rewrite (bias_for_base_rate_out_of_range x) by exact Hr. done.
  - unfold bias_for_base_rate_float. rewrite decide_False by exact Hr.
    by destruct negative.
  - unfold bias_for_base_rate_float. by rewrite decide_False by exact Hr.
Qed.

Lemma bias_for_base_rate_float_out_of_range_witness :
  bias_for_base_rate_float NaN = ([BaseRateOutOfRange], Ok NaN).
Proof. apply (bias_for_base_rate_float_out_of_range NaN). by intros []. Defined.

(** At the infinities and at not-a-number [sigmoid] returns, 0 at
    [-inf], 1 at [inf] and not-a-number again, although it raises
    [OverflowError] at every finite logit from [-710] downwards. *)
Theorem sigmoid_float_not_finite :
  sigmoid_float (Infinity true) = Ok (Finite 0)
  ∧ sigmoid_float (Infinity false) = Ok (Finite 1)
  ∧ sigmoid_float NaN = Ok NaN
  ∧ ∀ x, x <= -710 → sigmoid_float (Finite x) = Raise OverflowError.
Proof.
  split; [reflexivity |]. split; [| split; [reflexivity |]].
  - unfold sigmoid_float. cbn.
    destruct (decide (1 + 0 = 0)) as [Hz | _]; [lra |]. do 2 f_equal. field.
  - intros x Hx. by rewrite sigmoid_float_Finite, (sigmoid_raises_below x Hx).
Qed.

(** ** The first absent key *)


Lemma first_absent_Some WEIGHTS keys k :
  first_absent WEIGHTS keys = Some k → k ∈ keys ∧ WEIGHTS !! k = None.
Proof.
  induction keys as [| k' keys IH]; cbn; [done |].
  destruct (WEIGHTS !! k') eqn:Hk'.
  - intros [Hin Hnone]%IH. split; [by apply list_elem_of_further | done].
  - intros [= <-]. split; [apply list_elem_of_here | done].
Qed.









